(** * Branch lister and branch detail fetcher (main.py)

    A shallow embedding of [get_branches] and [get_branch_details].
    The remote API is a function from requests to outcomes; the order in
    which [concurrent.futures.as_completed] hands back the futures is an
    explicit argument of each operation. *)

From Stdlib Require Import ZArith String Ascii List Lia.
From Stdlib Require Import Floats.PrimFloat.
From stdpp Require Import base tactics option list.

Set Warnings "-register-all".

Local Open Scope string_scope.
Local Open Scope Z_scope.
Local Open Scope list_scope.

(** ** Python values

    What [Response.json()] can return, and what the two operations build:
    [None], booleans, integers, floats, strings, lists and dicts with
    string keys.  A dict is kept as the list of its items in insertion
    order; lookup takes the first item with the key. *)

Inductive value : Type :=
  | VNone
  | VBool (b : bool)
  | VInt (z : Z)
  | VFloat (f : float)
  | VStr (s : string)
  | VList (items : list value)
  | VDict (items : list (string * value)).

(** Exceptions the modelled code can meet.  [RequestException] stands for
    whatever [Session.get] itself raises (connection refused, timeout). *)
Inductive exn : Type :=
  | RequestException (reason : string)
  | HTTPError (status : Z)
  | JSONDecodeError
  | KeyError (key : string)
  | TypeError
  | AttributeError.

Inductive result (A : Type) : Type :=
  | Ok (a : A)
  | Raise (e : exn).
Arguments Ok {A} a.
Arguments Raise {A} e.

(** Sequencing: an exception skips the rest.  With these instances
    stdpp's [x ← e; k] reads as Python's statement sequence. *)
#[global] Instance result_bind : MBind result := fun A B k r =>
  match r with
  | Ok a => k a
  | Raise e => Raise e
  end.
#[global] Instance result_ret : MRet result := fun A a => Ok a.

(** [[f(x) for x in xs]]: evaluated left to right, the first exception
    aborts the whole comprehension. *)
Fixpoint comprehension {A B} (f : A -> result B) (xs : list A) : result (list B) :=
  match xs with
  | [] => Ok []
  | x :: rest =>
      y ← f x;
      ys ← comprehension f rest;
      Ok (y :: ys)
  end.

(** *** Primitive operations on values *)

(** [bool(v)], as used by [if not branches] and [if result]. *)
Definition truthy (v : value) : bool :=
  match v with
  | VNone => false
  | VBool b => b
  | VInt z => negb (Z.eqb z 0)
  | VFloat f => negb (PrimFloat.eqb f 0%float)
  | VStr s => negb (String.eqb s "")
  | VList items => negb (Nat.eqb (length items) 0)
  | VDict items => negb (Nat.eqb (length items) 0)
  end.

Fixpoint dict_get (items : list (string * value)) (key : string) : option value :=
  match items with
  | [] => None
  | (k, v) :: rest => if String.eqb k key then Some v else dict_get rest key
  end.

(** [d[key] = v] on a dict: an existing key keeps its position. *)
Fixpoint dict_set (items : list (string * value)) (key : string) (v : value)
  : list (string * value) :=
  match items with
  | [] => [(key, v)]
  | (k, w) :: rest =>
      if String.eqb k key then (k, v) :: rest else (k, w) :: dict_set rest key v
  end.

(** [{**base, **extra}]: the items of [extra] are written over [base] in order. *)
Definition dict_update (base extra : list (string * value)) : list (string * value) :=
  fold_left (fun d kv => dict_set d (fst kv) (snd kv)) extra base.

(** [v[key]] with a string key. *)
Definition getitem (v : value) (key : string) : result value :=
  match v with
  | VDict items =>
      match dict_get items key with
      | Some w => Ok w
      | None => Raise (KeyError key)
      end
  | _ => Raise TypeError
  end.

Fixpoint chars (s : string) : list value :=
  match s with
  | EmptyString => []
  | String c rest => VStr (String c EmptyString) :: chars rest
  end.

(** [for x in v]: the elements of a list, the keys of a dict, the
    characters of a string; anything else is not iterable. *)
Definition iterate (v : value) : result (list value) :=
  match v with
  | VList items => Ok items
  | VDict items => Ok (map (fun kv => VStr (fst kv)) items)
  | VStr s => Ok (chars s)
  | _ => Raise TypeError
  end.

(** [len(v)]. *)
Definition len (v : value) : result Z :=
  match v with
  | VList items => Ok (Z.of_nat (length items))
  | VDict items => Ok (Z.of_nat (length items))
  | VStr s => Ok (Z.of_nat (String.length s))
  | _ => Raise TypeError
  end.

(** [v.startswith(prefix)]: only strings have the method. *)
Definition startswith (v : value) (prefix : string) : result value :=
  match v with
  | VStr s => Ok (VBool (String.prefix prefix s))
  | _ => Raise AttributeError
  end.

(** [range(a, b)]. *)
Definition range (a b : Z) : list Z := seqZ a (b - a).

Fixpoint path (v : value) (keys : list string) : result value :=
  match keys with
  | [] => Ok v
  | key :: rest => w ← getitem v key; path w rest
  end.

(** ** The remote API and the console *)

Record response : Type := Response { status_code : Z; body : option value }.

(** A request is identified by what the code puts into the URL: the page
    number of a listing, or the value interpolated as the branch name. *)
Inductive request : Type :=
  | ListPage (page : Z)
  | BranchDetail (name : value).

(** [Session.get]: the answer, or the exception the call raises. *)
Definition api : Type := request -> result response.

(** [Response.raise_for_status()] raises for 4xx and 5xx only. *)
Definition raise_for_status (r : response) : result unit :=
  if (400 <=? status_code r) && (status_code r <? 600)
  then Raise (HTTPError (status_code r))
  else Ok tt.

(** [Response.json()]; a body that is not JSON has no value. *)
Definition json (r : response) : result value :=
  match body r with
  | Some v => Ok v
  | None => Raise JSONDecodeError
  end.

Inductive line : Type :=
  | ErrorFetchingPage (e : exn)
  | ErrorFetchingDetails (name : value) (e : exn)
  | ErrorProcessingBranch (e : exn).

Inductive event : Type :=
  | Get (r : request)
  | Print (l : line).

(** ** Effects

    A computation ends with a value or an exception and leaves a trace of
    the requests it sent and the lines it printed.  Tasks of a pool are
    traced where they are submitted: the trace records which events
    happen, not how the workers interleave. *)

Record io (A : Type) : Type := IO { outcome : result A; trace : list event }.
Arguments IO {A} outcome trace.
Arguments outcome {A} _.
Arguments trace {A} _.

#[global] Instance io_ret : MRet io := fun A a => IO (Ok a) [].
#[global] Instance io_bind : MBind io := fun A B k m =>
  match outcome m with
  | Ok a => let next := k a in IO (outcome next) (trace m ++ trace next)
  | Raise e => IO (Raise e) (trace m)
  end.

Definition lift {A} (r : result A) : io A := IO r [].

Definition get (session : api) (r : request) : io response :=
  IO (session r) [Get r].

Definition print (l : line) : io unit := IO (Ok tt) [Print l].

(** [try: body / except Exception as e: handler(e)]. *)
Definition try_except {A} (body : io A) (handler : exn -> io A) : io A :=
  match outcome body with
  | Ok a => body
  | Raise e =>
      let handled := handler e in
      IO (outcome handled) (trace body ++ trace handled)
  end.

(** [executor.submit(task)]: the task runs in the pool, its exception, if
    any, is kept in the future. *)
Definition submit {A} (task : io A) : io (result A) :=
  IO (Ok (outcome task)) (trace task).

Fixpoint submit_all {A B} (task : A -> io B) (args : list A) : io (list (result B)) :=
  match args with
  | [] => mret []
  | x :: rest =>
      future ← submit (task x);
      futures ← submit_all task rest;
      mret (future :: futures)
  end.

(** [as_completed(futures)]: every future once, in the order the tasks
    finish.  [order] lists the positions of the futures in that order. *)
Definition as_completed {A} (order : list nat) (futures : list A) : list A :=
  omap (fun i => futures !! i) order.

(** The orders [as_completed] can produce for [n] futures. *)
Definition completion_order (n : nat) (order : list nat) : Prop :=
  order ≡ₚ seq 0 n.

(** ** get_branches *)

Definition branch_ref (branch : value) : result value :=
  name ← getitem branch "name";
  sha ← path branch ["commit"; "sha"];
  Ok (VDict [("branch_name", name); ("commit_sha", sha)]).

(** The list comprehension over a page of the listing. *)
Definition branch_refs (branches : value) : result (list value) :=
  items ← iterate branches;
  comprehension branch_ref items.

Definition fetch_page (session : api) (page : Z) : io value :=
  response ← get session (ListPage page);
  lift (raise_for_status response);;
  lift (json response).

(** How one turn of the merging loop ends. *)
Inductive turn : Type :=
  | Break
  | Extend (refs : list value)
  | Caught.

Fixpoint merge_pages (completed : list (result value)) (all_branches : list value)
  : io (list value) :=
  match completed with
  | [] => mret all_branches
  | future :: rest =>
      t ← try_except
            (branches ← lift future;
             if negb (truthy branches) then mret Break
             else refs ← lift (branch_refs branches); mret (Extend refs))
            (fun e => print (ErrorFetchingPage e);; mret Caught);
      match t with
      | Break => mret all_branches
      | Extend refs => merge_pages rest (all_branches ++ refs)
      | Caught => merge_pages rest all_branches
      end
  end.

Definition get_branches (session : api) (order : list nat) : io (list value) :=
  first_response ← get session (ListPage 1);
  lift (raise_for_status first_response);;
  branches ← lift (json first_response);
  refs ← lift (branch_refs branches);
  let all_branches := [] ++ refs in
  n ← lift (len branches);
  if n =? 100 then
    future_to_page ← submit_all (fetch_page session) (range 2 11);
    merge_pages (as_completed order future_to_page) all_branches
  else mret all_branches.

(** ** get_branch_details *)

Definition fetch_branch_details (session : api) (branch : value) : io (option value) :=
  try_except
    (name ← lift (getitem branch "branch_name");
     response ← get session (BranchDetail name);
     lift (raise_for_status response);;
     details ← lift (json response);
     author ← lift (path details ["commit"; "author"; "login"]);
     last_updated ← lift (path details ["commit"; "commit"; "author"; "date"]);
     message ← lift (path details ["commit"; "commit"; "message"]);
     is_merged ← lift (startswith message "Merge");
     is_protected ← lift (getitem details "protected");
     items ← lift (match branch with VDict items => Ok items | _ => Raise TypeError end);
     mret (Some (VDict (dict_update
       [("author", author); ("last_updated", last_updated);
        ("is_merged", is_merged); ("is_protected", is_protected)] items))))
    (fun e =>
       name ← lift (getitem branch "branch_name");
       print (ErrorFetchingDetails name e);;
       mret None).

Fixpoint collect_details (completed : list (result (option value)))
    (all_branch_details : list value) : io (list value) :=
  match completed with
  | [] => mret all_branch_details
  | future :: rest =>
      all_branch_details ← try_except
        (result ← lift future;
         match result with
         | Some user_details =>
             if truthy user_details
             then mret (all_branch_details ++ [user_details])
             else mret all_branch_details
         | None => mret all_branch_details
         end)
        (fun e => print (ErrorProcessingBranch e);; mret all_branch_details);
      collect_details rest all_branch_details
  end.

Definition get_branch_details (session : api) (order : list nat) (branches : list value)
  : io (list value) :=
  future_to_branch ← submit_all (fetch_branch_details session) branches;
  collect_details (as_completed order future_to_branch) [].

(** The entry point: listing, then details of what was listed. *)
Definition main (session : api) (order1 order2 : list nat) : io (list value) :=
  branches ← get_branches session order1;
  get_branch_details session order2 branches.

(** ** What the loops compute

    Pure readings of the two merging loops, used to state the results. *)

(** The synchronous part of [get_branches]: the refs of page 1 and the
    length the code compares with 100. *)
Definition first_page (session : api) : result (list value * Z) :=
  first_response ← session (ListPage 1);
  raise_for_status first_response;;
  branches ← json first_response;
  refs ← branch_refs branches;
  n ← len branches;
  Ok (refs, n).

(** What the future of a page holds. *)
Definition page_result (session : api) (page : Z) : result value :=
  outcome (fetch_page session page).

(** The page's future holds a falsy value: the loop ends there. *)
Definition empty_page (session : api) (page : Z) : bool :=
  match page_result session page with
  | Ok branches => negb (truthy branches)
  | Raise _ => false
  end.

(** The exception one turn of the loop catches for the page, if any. *)
Definition page_error (session : api) (page : Z) : option exn :=
  match page_result session page with
  | Ok branches =>
      if truthy branches then
        match branch_refs branches with
        | Ok _ => None
        | Raise e => Some e
        end
      else None
  | Raise e => Some e
  end.

(** The refs a turn of the loop appends for the page. *)
Definition page_refs (session : api) (page : Z) : list value :=
  match page_result session page with
  | Ok branches =>
      if truthy branches then
        match branch_refs branches with
        | Ok refs => refs
        | Raise _ => []
        end
      else []
  | Raise _ => []
  end.

(** The refs appended for pages taken in the given order, up to the
    first empty one. *)
Fixpoint merged (session : api) (pages : list Z) : list value :=
  match pages with
  | [] => []
  | page :: rest =>
      if empty_page session page then []
      else page_refs session page ++ merged session rest
  end.

(** The lines printed for pages taken in the given order. *)
Fixpoint page_lines (session : api) (pages : list Z) : list event :=
  match pages with
  | [] => []
  | page :: rest =>
      if empty_page session page then []
      else match page_error session page with
           | Some e => Print (ErrorFetchingPage e) :: page_lines session rest
           | None => page_lines session rest
           end
  end.

(** The body of the [try] in [fetch_branch_details], without its trace. *)
Definition user_details (session : api) (branch : value) : result value :=
  name ← getitem branch "branch_name";
  response ← session (BranchDetail name);
  raise_for_status response;;
  details ← json response;
  author ← path details ["commit"; "author"; "login"];
  last_updated ← path details ["commit"; "commit"; "author"; "date"];
  message ← path details ["commit"; "commit"; "message"];
  is_merged ← startswith message "Merge";
  is_protected ← getitem details "protected";
  items ← match branch with VDict items => Ok items | _ => Raise TypeError end;
  Ok (VDict (dict_update
       [("author", author); ("last_updated", last_updated);
        ("is_merged", is_merged); ("is_protected", is_protected)] items)).

(** The record the loop of [get_branch_details] keeps for a future. *)
Definition kept (future : result (option value)) : option value :=
  match future with
  | Ok (Some user_details) =>
      if truthy user_details then Some user_details else None
  | _ => None
  end.

(** The record a branch ends up with, if any. *)
Definition detail_of (session : api) (branch : value) : option value :=
  kept (outcome (fetch_branch_details session branch)).

Definition requests (t : list event) : list request :=
  omap (fun ev => match ev with Get r => Some r | Print _ => None end) t.

(** A BranchRef as [get_branches] builds it. *)
Definition BranchRef (name sha : value) : value :=
  VDict [("branch_name", name); ("commit_sha", sha)].

(** The [branch_name] values of a list of records. *)
Definition branch_names (records : list value) : list value :=
  omap (fun record =>
          match getitem record "branch_name" with
          | Ok name => Some name
          | Raise _ => None
          end) records.


(** The lines the loop of [get_branch_details] prints. *)
Definition loop_lines (completed : list (result (option value))) : list event :=
  omap (fun future =>
          match future with
          | Raise e => Some (Print (ErrorProcessingBranch e))
          | Ok _ => None
          end) completed.

(** The positions, in completion order, of the branches that end up with
    a record. *)
Definition fetched (session : api) (branches : list value) (order : list nat)
  : list nat :=
  filter (fun i => is_Some (branches !! i ≫= detail_of session)) order.

(** ** Sample sessions *)

(** An item of a listing page. *)
Definition listed (name sha : string) : value :=
  VDict [("name", VStr name); ("commit", VDict [("sha", VStr sha)])].

(** The body of a branch detail response. *)
Definition detailed (login date message : string) (protected : bool) : value :=
  VDict [("commit",
          VDict [("author", VDict [("login", VStr login)]);
                 ("commit", VDict [("author", VDict [("date", VStr date)]);
                                   ("message", VStr message)])]);
         ("protected", VBool protected)].

Definition success (v : value) : result response := Ok (Response 200 (Some v)).

(** Two branches; the detail request for every branch but "main" gets a 404. *)
Definition acme : api := fun r =>
  match r with
  | ListPage _ => success (VList [listed "main" "a1"; listed "dev" "b2"])
  | BranchDetail (VStr "main") =>
      success (detailed "alice" "2024-01-01T00:00:00Z" "Merge pull request #1" true)
  | BranchDetail _ => Ok (Response 404 None)
  end.

(** The record [acme] yields for "main". *)
Definition acme_record : value :=
  VDict [("author", VStr "alice"); ("last_updated", VStr "2024-01-01T00:00:00Z");
         ("is_merged", VBool true); ("is_protected", VBool true);
         ("branch_name", VStr "main"); ("commit_sha", VStr "a1")].

(** A full first page, an empty page 2, one branch on page 3, a server
    error on page 4. *)
Definition demo : api := fun r =>
  match r with
  | ListPage 1 => success (VList (replicate 100 (listed "main" "a1")))
  | ListPage 2 => success (VList [])
  | ListPage 3 => success (VList [listed "dev" "b2"])
  | ListPage 4 => Ok (Response 500 None)
  | ListPage _ => success (VList [])
  | BranchDetail _ =>
      success (detailed "alice" "2024-01-01T00:00:00Z" "Merge pull request #1" false)
  end.

(** A full first page and one branch on every later page. *)
Definition full : api := fun r =>
  match r with
  | ListPage 1 => success (VList (replicate 100 (listed "main" "a1")))
  | ListPage _ => success (VList [listed "dev" "b2"])
  | BranchDetail _ =>
      success (detailed "alice" "2024-01-01T00:00:00Z" "Merge pull request #1" false)
  end.

(** Every request is answered 401. *)
Definition unauthorized : api := fun _ => Ok (Response 401 None).

(** The listing is answered 300 with a JSON body. *)
Definition multiple_choices : api := fun r =>
  match r with
  | ListPage _ => Ok (Response 300 (Some (VList [listed "main" "a1"])))
  | BranchDetail _ => Ok (Response 404 None)
  end.

(** The record [demo] and [full] yield for a listed branch. *)
Definition demo_record (name sha : string) : value :=
  VDict [("author", VStr "alice"); ("last_updated", VStr "2024-01-01T00:00:00Z");
         ("is_merged", VBool true); ("is_protected", VBool false);
         ("branch_name", VStr name); ("commit_sha", VStr sha)].

(** Page 3 finishes before page 2, the others in page order. *)
Definition page_3_first : list nat := [1; 0; 2; 3; 4; 5; 6; 7; 8]%nat.


(** ** Statements that do not hold of the code as worded *)

(** An empty page never keeps a sibling page from being merged. *)
Definition siblings_merged (session : api) (order : list nat) : Prop :=
  forall items empty page found refs all_branches,
    completion_order 9 order ->
    page_result session 1 = Ok (VList items) ->
    length items = 100%nat ->
    empty ∈ range 2 11 ->
    page_result session empty = Ok (VList []) ->
    page ∈ range 2 11 ->
    Get (ListPage page) ∈ trace (get_branches session order) ->
    page_result session page = Ok found ->
    branch_refs found = Ok refs ->
    outcome (get_branches session order) = Ok all_branches ->
    forall ref, ref ∈ refs -> ref ∈ all_branches.

(** Any status outside 2xx on page 1 makes [get_branches] raise. *)
Definition first_page_status_fatal (session : api) (order : list nat) : Prop :=
  forall response,
    session (ListPage 1) = Ok response ->
    ~ (200 <= status_code response < 300) ->
    exists e, outcome (get_branches session order) = Raise e.


(** Two runs against the same session output the same set of names. *)
Definition names_deterministic (session : api)
    (order1 order1' order2 order2' : list nat) : Prop :=
  forall branches branches' records records',
    completion_order 9 order1 ->
    completion_order 9 order1' ->
    outcome (get_branches session order1) = Ok branches ->
    outcome (get_branches session order1') = Ok branches' ->
    completion_order (length branches) order2 ->
    completion_order (length branches') order2' ->
    outcome (get_branch_details session order2 branches) = Ok records ->
    outcome (get_branch_details session order2' branches') = Ok records' ->
    forall name, name ∈ branch_names records <-> name ∈ branch_names records'.

(** ** Conditions of the amended statements *)



(** The names of the records the given branches end up with. *)
Definition names_of (session : api) (branches : list value) : list value :=
  branch_names (omap (detail_of session) branches).

(** The order of completion cannot change the names that are output:
    page 1 is not a full page, or no later page is empty, or no later
    page adds a name to those of page 1. *)
Definition order_independent (session : api) : Prop :=
  forall refs,
    first_page session = Ok (refs, 100) ->
    (forall page, page ∈ range 2 11 -> empty_page session page = false) \/
    (forall page name,
       page ∈ range 2 11 ->
       name ∈ names_of session (page_refs session page) ->
       name ∈ names_of session refs).

(** A completion order of [n] tasks in which those at the positions
    [first] finish first, in that order. *)
Definition taken_first (first : list nat) (n : nat) : list nat :=
  first ++ list_difference (seq 0 n) first.

(** ** More sample sessions *)

(** Exactly 100 branches: a full first page and nothing after it. *)
Definition hundred : api := fun r =>
  match r with
  | ListPage 1 => success (VList (replicate 100 (listed "main" "a1")))
  | ListPage _ => success (VList [])
  | BranchDetail _ =>
      success (detailed "alice" "2024-01-01T00:00:00Z" "Merge pull request #1" false)
  end.

(** The listing is answered 200 with an error object. *)
Definition error_object : api := fun r =>
  match r with
  | ListPage _ => success (VDict [("message", VStr "Not Found")])
  | BranchDetail _ => Ok (Response 404 None)
  end.

(** The second item of the listing has no name. *)
Definition nameless : api := fun r =>
  match r with
  | ListPage _ =>
      success (VList [listed "main" "a1"; VDict [("commit", VDict [("sha", VStr "b2")])]])
  | BranchDetail _ => Ok (Response 404 None)
  end.

(** The commit of every branch has no account behind its author. *)
Definition ghost : api := fun r =>
  match r with
  | ListPage _ => success (VList [listed "main" "a1"])
  | BranchDetail _ =>
      success (VDict [("commit",
                       VDict [("author", VNone);
                              ("commit",
                               VDict [("author", VDict [("date", VStr "2024-01-01T00:00:00Z")]);
                                      ("message", VStr "Fix bug")])]);
                      ("protected", VBool false)])
  end.

(** ** The session headers

    [create_session] only touches the headers of the new [Session].  They
    are a [CaseInsensitiveDict]: the store is keyed by the lowered header
    name and keeps the name as last written with its value.  [lower] is
    [str.lower]; the headers a fresh [Session] starts with come from the
    library and are an argument. *)

Section Headers.
Variable lower : string -> string.

Definition headers : Type := list (string * (string * string)).

(** [h[key]], [None] for a [KeyError]. *)
Fixpoint header_get (h : headers) (key : string) : option string :=
  match h with
  | [] => None
  | (k, (_, v)) :: rest =>
      if String.eqb k (lower key) then Some v else header_get rest key
  end.

(** [h[key] = v]. *)
Fixpoint header_set (h : headers) (key v : string) : headers :=
  match h with
  | [] => [(lower key, (key, v))]
  | (k, old) :: rest =>
      if String.eqb k (lower key) then (k, (key, v)) :: rest
      else (k, old) :: header_set rest key v
  end.

(** [h.update(items)]. *)
Definition header_update (h : headers) (items : list (string * string)) : headers :=
  fold_left (fun h kv => header_set h (fst kv) (snd kv)) items h.

(** The headers of the session [create_session(token)] returns. *)
Definition create_session (default_headers : headers) (token : string) : headers :=
  header_update default_headers
    [("Authorization", String.append "token " token);
     ("Accept", "application/vnd.github.v3+json")].

End Headers.

(** [str.lower] on ASCII names. *)
Definition ascii_lower_char (c : ascii) : ascii :=
  let n := nat_of_ascii c in
  if (Nat.leb 65 n && Nat.leb n 90)%bool then ascii_of_nat (n + 32) else c.

Fixpoint ascii_lower (s : string) : string :=
  match s with
  | EmptyString => EmptyString
  | String c rest => String (ascii_lower_char c) (ascii_lower rest)
  end.

(** Headers such as a fresh [Session] carries. *)
Definition sample_headers : headers :=
  [("user-agent", ("User-Agent", "python-requests/2.31.0"));
   ("accept-encoding", ("Accept-Encoding", "gzip, deflate"));
   ("accept", ("Accept", "*/*"));
   ("connection", ("Connection", "keep-alive"))].

(** ** The script

    The block under [if __name__ == "__main__"]: what it prints itself,
    what the two operations send and print, and the file it writes.
    [Dump file records] is [json.dump(records, f)] on [file] opened for
    writing; opening and writing are taken to succeed.  The progress bar
    of [tqdm] goes to the error stream and is left out. *)

Inductive message : Type :=
  | FetchingBranches
  | FoundBranches (n : nat)
  | ProcessedDetails (n : nat).

Inductive effect : Type :=
  | Say (m : message)
  | Did (ev : event)
  | Dump (file : string) (records : list value).

Definition script (session : api) (order1 order2 : list nat)
  : result unit * list effect :=
  let listing := get_branches session order1 in
  match outcome listing with
  | Raise e => (Raise e, Say FetchingBranches :: map Did (trace listing))
  | Ok branches =>
      let details := get_branch_details session order2 branches in
      let so_far :=
        Say FetchingBranches :: map Did (trace listing)
        ++ Say (FoundBranches (length branches)) :: map Did (trace details) in
      match outcome details with
      | Raise e => (Raise e, so_far)
      | Ok branch_details =>
          (Ok tt,
           so_far ++ [Say (ProcessedDetails (length branch_details));
                      Dump "branches.json" branch_details])
      end
  end.

(** The files a run writes. *)
Definition dumps (effects : list effect) : list (string * list value) :=
  omap (fun eff => match eff with Dump file records => Some (file, records) | _ => None end)
       effects.

(** ** More readings *)

(** The lines a run prints. *)
Definition printed (t : list event) : list line :=
  omap (fun ev => match ev with Print l => Some l | Get _ => None end) t.

(** The request the task of a branch sends, if it gets that far. *)
Definition detail_request (branch : value) : option request :=
  match getitem branch "branch_name" with
  | Ok name => Some (BranchDetail name)
  | Raise _ => None
  end.

(** An item of a listing page is well formed: it yields a ref. *)
Definition well_formed_item (item : value) : Prop :=
  exists ref, branch_ref item = Ok ref.

(** The six entries of a record, in the order the code writes them. *)
Definition detail_record (author last_updated : value) (is_merged : bool)
    (is_protected name sha : value) : value :=
  VDict [("author", author); ("last_updated", last_updated);
         ("is_merged", VBool is_merged); ("is_protected", is_protected);
         ("branch_name", name); ("commit_sha", sha)].

(** ** Lemmas on the effects *)

Lemma outcome_bind {A B} (m : io A) (k : A -> io B) :
  outcome (m ≫= k) = outcome m ≫= (fun a => outcome (k a)).
Proof. unfold mbind, io_bind, result_bind. by destruct (outcome m). Qed.

Lemma trace_bind {A B} (m : io A) (k : A -> io B) :
  trace (m ≫= k) =
  trace m ++ match outcome m with Ok a => trace (k a) | Raise _ => [] end.
Proof.
  unfold mbind, io_bind. destruct (outcome m); cbn; by rewrite ?app_nil_r.
Qed.

Lemma lift_bind {A B} (r : result A) (k : A -> io B) :
  lift r ≫= k = match r with Ok a => k a | Raise e => IO (Raise e) [] end.
Proof. destruct r as [a|e]; [|done]. unfold mbind, io_bind. cbn. by destruct (k a). Qed.

Lemma outcome_try_except {A} (body : io A) handler :
  outcome (try_except body handler) =
  match outcome body with
  | Ok a => Ok a
  | Raise e => outcome (handler e)
  end.
Proof. unfold try_except. by destruct (outcome body) eqn:E. Qed.

Lemma trace_try_except {A} (body : io A) handler :
  trace (try_except body handler) =
  trace body ++ match outcome body with
                | Ok _ => []
                | Raise e => trace (handler e)
                end.
Proof. unfold try_except. destruct (outcome body); cbn; by rewrite ?app_nil_r. Qed.

(** One step through a computation: split the binds, then simplify. *)
Ltac io_step :=
  rewrite ?outcome_bind, ?trace_bind; cbn -[path getitem startswith dict_update].

(** One step through a computation whose next statement has no effect. *)
Ltac lift_step :=
  cbn beta iota; rewrite ?lift_bind; cbn [mbind result_bind outcome trace app].

(** Splits the first step of a computation known to succeed. *)
Tactic Notation "bind_inv" hyp(H) "as" ident(x) :=
  match type of H with
  | (?r ≫= _) = Ok _ =>
      destruct r as [x|?] eqn:?;
      [cbn -[path getitem startswith dict_update] in H | discriminate H]
  end.

Lemma submit_all_outcome {A B} (task : A -> io B) (args : list A) :
  outcome (submit_all task args) = Ok (map (fun x => outcome (task x)) args).
Proof.
  induction args as [|x rest IH]; [done|].
  cbn [submit_all]. rewrite !outcome_bind. cbn. rewrite outcome_bind, IH. done.
Qed.

Lemma submit_all_trace {A B} (task : A -> io B) (args : list A) :
  trace (submit_all task args) = concat (map (fun x => trace (task x)) args).
Proof.
  induction args as [|x rest IH]; [done|].
  cbn [submit_all]. rewrite trace_bind. cbn. rewrite trace_bind, IH.
  rewrite submit_all_outcome. cbn. by rewrite app_nil_r.
Qed.

(** ** Lemmas on completion orders *)

Lemma as_completed_map {A B} (f : A -> B) (order : list nat) (xs : list A) :
  as_completed order (map f xs) = map f (as_completed order xs).
Proof.
  unfold as_completed. induction order as [|i order IH]; [done|].
  cbn. rewrite list_lookup_fmap. destruct (xs !! i); cbn; by rewrite ?IH.
Qed.

Lemma lookup_from {A} (pre xs : list A) :
  omap (fun i => (pre ++ xs) !! i) (seq (length pre) (length xs)) = xs.
Proof.
  revert pre. induction xs as [|x xs IH]; intros pre; [done|].
  cbn. rewrite lookup_app_r, Nat.sub_diag by lia. cbn. f_equal.
  specialize (IH (pre ++ [x])). rewrite length_app, Nat.add_1_r in IH.
  rewrite <- (assoc_L (++)) in IH. exact IH.
Qed.

Lemma as_completed_seq {A} (xs : list A) :
  as_completed (seq 0 (length xs)) xs = xs.
Proof. exact (lookup_from [] xs). Qed.

Lemma as_completed_perm {A} (order : list nat) (xs : list A) :
  completion_order (length xs) order -> as_completed order xs ≡ₚ xs.
Proof.
  unfold completion_order. intros H.
  rewrite <- (as_completed_seq xs) at 2.
  unfold as_completed. by rewrite H.
Qed.

Lemma as_completed_nil {A} (order : list nat) : as_completed order (@nil A) = [].
Proof. unfold as_completed. induction order as [|i order IH]; [done|]. by cbn. Qed.

Lemma as_completed_elem {A} (order : list nat) (xs : list A) x :
  x ∈ as_completed order xs -> x ∈ xs.
Proof.
  unfold as_completed. intros H.
  apply list_elem_of_omap in H as (i & _ & Hi). by eapply list_elem_of_lookup_2.
Qed.

Lemma taken_first_order first n :
  NoDup first ->
  (forall i, i ∈ first -> (i < n)%nat) ->
  completion_order n (taken_first first n).
Proof.
  intros Hnodup Hlt. unfold completion_order, taken_first.
  apply NoDup_Permutation.
  - apply NoDup_app. split; [done|]. split.
    + intros i Hi [_ Hnot]%list_elem_of_difference. by apply Hnot.
    + apply NoDup_list_difference, NoDup_seq.
  - apply NoDup_seq.
  - intros i. rewrite elem_of_app, list_elem_of_difference, elem_of_seq. split.
    + intros [Hi|[Hi _]]; [|lia]. specialize (Hlt i Hi). lia.
    + intros Hi. destruct (decide (i ∈ first)); [by left|right; split; [lia|done]].
Qed.

Lemma as_completed_app {A} (o1 o2 : list nat) (xs : list A) :
  as_completed (o1 ++ o2) xs = as_completed o1 xs ++ as_completed o2 xs.
Proof. apply omap_app. Qed.

Lemma omap_as_completed {A B} (f : A -> option B) order (xs : list A) :
  omap f (as_completed order xs) = omap (fun i => xs !! i ≫= f) order.
Proof.
  unfold as_completed. induction order as [|i order IH]; [done|].
  cbn. destruct (xs !! i) as [x|]; cbn; [|done].
  destruct (f x); cbn; by rewrite IH.
Qed.

Lemma completion_order_NoDup n order : completion_order n order -> NoDup order.
Proof. intros H. rewrite H. apply NoDup_seq. Qed.

Lemma completion_order_elem n order i :
  completion_order n order -> (i < n)%nat -> i ∈ order.
Proof. intros H Hi. rewrite H. apply elem_of_seq. lia. Qed.

Lemma completion_order_length n order : completion_order n order -> length order = n.
Proof. intros H. by rewrite H, length_seq. Qed.

Lemma omap_length_le {A B} (f : A -> option B) xs :
  (length (omap f xs) <= length xs)%nat.
Proof. induction xs as [|x xs IH]; cbn; [lia|]. destruct (f x); cbn; lia. Qed.


Lemma concat_map_perm {A B} (f : A -> list B) xs ys :
  xs ≡ₚ ys -> concat (map f xs) ≡ₚ concat (map f ys).
Proof.
  induction 1 as [|x xs ys _ IH|x y xs|xs ys zs _ IH1 _ IH2]; cbn.
  - done.
  - by rewrite IH.
  - rewrite !(assoc_L (++)). f_equiv. apply Permutation_app_comm.
  - by rewrite IH1.
Qed.

(** ** Lemmas on the listing *)

Lemma comprehension_Forall2 {A B} (f : A -> result B) xs ys :
  comprehension f xs = Ok ys -> Forall2 (fun x y => f x = Ok y) xs ys.
Proof.
  revert ys. induction xs as [|x xs IH]; intros ys H; cbn in H.
  - injection H as <-. constructor.
  - destruct (f x) as [y|e] eqn:Hx; [|done]. cbn in H.
    destruct (comprehension f xs) as [ys'|e]; [|done]. cbn in H.
    injection H as <-. constructor; auto.
Qed.

Lemma comprehension_length {A B} (f : A -> result B) xs ys :
  comprehension f xs = Ok ys -> length ys = length xs.
Proof. intros H. symmetry. eapply Forall2_length, comprehension_Forall2, H. Qed.

Lemma branch_ref_inv branch ref :
  branch_ref branch = Ok ref ->
  exists name sha,
    getitem branch "name" = Ok name /\
    path branch ["commit"; "sha"] = Ok sha /\
    ref = BranchRef name sha.
Proof.
  unfold branch_ref. intros H.
  destruct (getitem branch "name") as [name|e]; [|done]. cbn -[path] in H.
  destruct (path branch _) as [sha|e]; [|done]. cbn in H.
  injection H as <-. by exists name, sha.
Qed.

Lemma branch_refs_length branches refs :
  branch_refs branches = Ok refs ->
  refs = [] \/ exists items, branches = VList items /\ length refs = length items.
Proof.
  unfold branch_refs. intros H.
  destruct branches as [| | | |s|items|items]; try done; cbn in H.
  - destruct s as [|c s]; cbn in H; [injection H as <-; by left|done].
  - right. exists items. split; [done|]. by eapply comprehension_length.
  - destruct items as [|[k v] items]; cbn in H; [injection H as <-; by left|done].
Qed.

Lemma merge_pages_outcome session pages acc :
  outcome (merge_pages (map (page_result session) pages) acc)
  = Ok (acc ++ merged session pages).
Proof.
  revert acc. induction pages as [|page rest IH]; intros acc.
  - cbn. by rewrite app_nil_r.
  - cbn [map merge_pages merged]. rewrite outcome_bind.
    unfold empty_page, page_refs, try_except.
    destruct (page_result session page) as [branches|e]; cbn.
    + destruct (truthy branches); cbn.
      * destruct (branch_refs branches) as [refs|e]; cbn.
        -- rewrite IH. by rewrite (assoc_L (++)).
        -- by rewrite IH.
      * by rewrite app_nil_r.
    + by rewrite IH.
Qed.

Lemma merge_pages_trace session pages acc :
  trace (merge_pages (map (page_result session) pages) acc)
  = page_lines session pages.
Proof.
  revert acc. induction pages as [|page rest IH]; intros acc; [done|].
  cbn [map merge_pages page_lines]. rewrite trace_bind.
  unfold empty_page, page_error, try_except.
  destruct (page_result session page) as [branches|e]; cbn.
  + destruct (truthy branches); cbn.
    * destruct (branch_refs branches) as [refs|e]; cbn.
      -- by rewrite IH.
      -- by rewrite IH.
    * done.
  + by rewrite IH.
Qed.

Lemma fetch_page_trace session page :
  trace (fetch_page session page) = [Get (ListPage page)].
Proof.
  unfold fetch_page. io_step.
  destruct (session (ListPage page)) as [response|e]; [|done].
  io_step. by destruct (raise_for_status response).
Qed.

Lemma page_result_eq session page :
  page_result session page =
  (response ← session (ListPage page); raise_for_status response;; json response).
Proof.
  unfold page_result, fetch_page. io_step.
  destruct (session (ListPage page)) as [response|e]; [|done].
  io_step. by destruct (raise_for_status response).
Qed.

Lemma get_branches_outcome session order :
  outcome (get_branches session order) =
  match first_page session with
  | Ok (refs, n) =>
      if n =? 100
      then Ok (refs ++ merged session (as_completed order (range 2 11)))
      else Ok refs
  | Raise e => Raise e
  end.
Proof.
  unfold get_branches, first_page. io_step.
  destruct (session (ListPage 1)) as [response|e]; [|done]. io_step.
  destruct (raise_for_status response); [|done]. io_step.
  destruct (json response) as [branches|e]; [|done]. io_step.
  destruct (branch_refs branches) as [refs|e]; [|done]. io_step.
  destruct (len branches) as [n|e]; [|done]. io_step.
  destruct (n =? 100); [|done].
  rewrite outcome_bind, submit_all_outcome. cbn.
  change (fun x => outcome (fetch_page session x)) with (page_result session).
  rewrite as_completed_map. apply merge_pages_outcome.
Qed.

Lemma get_branches_trace session order :
  trace (get_branches session order) =
  Get (ListPage 1) ::
  match first_page session with
  | Ok (refs, n) =>
      if n =? 100
      then map (fun page => Get (ListPage page)) (range 2 11)
           ++ page_lines session (as_completed order (range 2 11))
      else []
  | Raise e => []
  end.
Proof.
  unfold get_branches, first_page. io_step. f_equal.
  destruct (session (ListPage 1)) as [response|e]; [|done]. io_step.
  destruct (raise_for_status response); [|done]. io_step.
  destruct (json response) as [branches|e]; [|done]. io_step.
  destruct (branch_refs branches) as [refs|e]; [|done]. io_step.
  destruct (len branches) as [n|e]; [|done]. io_step.
  destruct (n =? 100); [|done].
  rewrite trace_bind, submit_all_outcome, submit_all_trace.
  change (fun x => outcome (fetch_page session x)) with (page_result session).
  rewrite as_completed_map, merge_pages_trace. f_equal.
  induction (range 2 11) as [|p ps IH]; [done|].
  cbn [map concat]. rewrite fetch_page_trace, IH. done.
Qed.

Lemma first_page_inv session refs n :
  first_page session = Ok (refs, n) ->
  exists response branches items,
    session (ListPage 1) = Ok response /\
    raise_for_status response = Ok tt /\
    json response = Ok branches /\
    iterate branches = Ok items /\
    comprehension branch_ref items = Ok refs /\
    len branches = Ok n.
Proof.
  unfold first_page. intros H.
  destruct (session (ListPage 1)) as [response|e]; [|done]. cbn in H.
  destruct (raise_for_status response) as [[]|e] eqn:Hs; [|done]. cbn in H.
  destruct (json response) as [branches|e] eqn:Hj; [|done]. cbn in H.
  unfold branch_refs in H.
  destruct (iterate branches) as [items|e] eqn:Hi; [|done]. cbn in H.
  destruct (comprehension branch_ref items) as [refs'|e] eqn:Hc; [|done]. cbn in H.
  destruct (len branches) as [n'|e] eqn:Hl; [|done]. cbn in H.
  injection H as <- <-. by exists response, branches, items.
Qed.

Lemma merged_app session before rest :
  (forall page, page ∈ before -> empty_page session page = false) ->
  merged session (before ++ rest)
  = concat (map (page_refs session) before) ++ merged session rest.
Proof.
  induction before as [|p before IH]; intros Hbefore; [done|].
  cbn [app merged map concat].
  rewrite (Hbefore p) by (apply elem_of_cons; auto).
  rewrite IH, (assoc_L (++)); [done|].
  intros page Hpage. apply Hbefore, elem_of_cons. auto.
Qed.

Lemma merged_no_empty session pages :
  (forall page, page ∈ pages -> empty_page session page = false) ->
  merged session pages = concat (map (page_refs session) pages).
Proof.
  intros H. rewrite <- (app_nil_r pages) at 1.
  rewrite merged_app by done. cbn. by rewrite app_nil_r.
Qed.




Section PageSize.
Variable session : api.
Hypothesis per_page : forall page items,
  page_result session page = Ok (VList items) -> (length items <= 100)%nat.

Lemma page_refs_length page : (length (page_refs session page) <= 100)%nat.
Proof.
  unfold page_refs.
  destruct (page_result session page) as [branches|e] eqn:Hpage; cbn; [|lia].
  destruct (truthy branches); cbn; [|lia].
  destruct (branch_refs branches) as [refs|e] eqn:Hrefs; cbn; [|lia].
  destruct (branch_refs_length _ _ Hrefs) as [->|(items & -> & ->)]; cbn; [lia|].
  by eapply per_page.
Qed.

Lemma merged_length pages :
  (length (merged session pages) <= 100 * length pages)%nat.
Proof.
  induction pages as [|page rest IH]; cbn [merged length]; [lia|].
  destruct (empty_page session page); cbn [length]; [lia|].
  rewrite length_app. pose proof (page_refs_length page). lia.
Qed.
End PageSize.

Lemma requests_app t1 t2 : requests (t1 ++ t2) = requests t1 ++ requests t2.
Proof. apply omap_app. Qed.

Lemma requests_page_lines session pages : requests (page_lines session pages) = [].
Proof.
  induction pages as [|page rest IH]; [done|]. cbn [page_lines].
  destruct (empty_page session page); [done|].
  by destruct (page_error session page).
Qed.

Lemma requests_get_branches session order :
  requests (trace (get_branches session order)) =
  match first_page session with
  | Ok (_, n) => if n =? 100 then map ListPage (range 1 11) else [ListPage 1]
  | Raise _ => [ListPage 1]
  end.
Proof.
  rewrite get_branches_trace.
  destruct (first_page session) as [[refs n]|e]; [|done].
  destruct (n =? 100); [|done].
  change (requests (?ev :: ?t)) with (requests [ev] ++ requests t).
  rewrite requests_app, requests_page_lines, app_nil_r. done.
Qed.

Lemma get_branches_perm session order order' branches branches' :
  (forall refs, first_page session = Ok (refs, 100) ->
     forall page, page ∈ range 2 11 -> empty_page session page = false) ->
  completion_order 9 order ->
  completion_order 9 order' ->
  outcome (get_branches session order) = Ok branches ->
  outcome (get_branches session order') = Ok branches' ->
  branches ≡ₚ branches'.
Proof.
  intros Hfull Horder Horder'. rewrite !get_branches_outcome.
  destruct (first_page session) as [[refs n]|e]; [|done].
  destruct (Z.eqb_spec n 100) as [->|_]; intros [= <-] [= <-]; [|done].
  assert (Hperm : forall o, completion_order 9 o -> as_completed o (range 2 11) ≡ₚ range 2 11).
  { intros o Ho. by apply as_completed_perm. }
  rewrite !merged_no_empty.
  - f_equiv. apply concat_map_perm. by rewrite !Hperm.
  - intros page Hpage. eapply Hfull; [done|]. by rewrite <- (Hperm order').
  - intros page Hpage. eapply Hfull; [done|]. by rewrite <- (Hperm order).
Qed.

(** ** Lemmas on the details *)

Lemma prefix_append (p s : string) :
  String.prefix p s = true <-> exists rest, s = String.append p rest.
Proof.
  revert s. induction p as [|c p IH]; intros s.
  - destruct s; cbn; split; eauto.
  - destruct s as [|d s]; cbn.
    + split; [discriminate|]. intros [rest H]. discriminate H.
    + destruct (Ascii.ascii_dec c d) as [->|Hne].
      * rewrite IH. split; intros [rest H]; exists rest; congruence.
      * split; [discriminate|]. intros [rest H]. congruence.
Qed.

Lemma dict_set_length items key v :
  (length items <= length (dict_set items key v))%nat.
Proof.
  induction items as [|[k w] items IH]; cbn; [lia|].
  destruct (String.eqb k key); cbn; lia.
Qed.

Lemma dict_update_length base extra :
  (length base <= length (dict_update base extra))%nat.
Proof.
  unfold dict_update. revert base.
  induction extra as [|[k v] extra IH]; intros base; cbn; [lia|].
  etrans; [|apply IH]. apply dict_set_length.
Qed.

Lemma user_details_truthy session branch record :
  user_details session branch = Ok record -> truthy record = true.
Proof.
  unfold user_details. intros H.
  bind_inv H as name. bind_inv H as response. bind_inv H as ok. bind_inv H as details.
  bind_inv H as author. bind_inv H as last_updated. bind_inv H as message.
  bind_inv H as is_merged. bind_inv H as is_protected. bind_inv H as items.
  injection H as <-. cbn -[dict_update].
  match goal with |- context [dict_update ?b ?x] =>
    pose proof (dict_update_length b x) as Hlen; cbn [length] in Hlen;
    destruct (dict_update b x) end; [cbn in Hlen; lia|done].
Qed.

Lemma fetch_branch_details_run session branch :
  outcome (fetch_branch_details session branch) =
    match user_details session branch with
    | Ok record => Ok (Some record)
    | Raise e => getitem branch "branch_name";; Ok None
    end /\
  trace (fetch_branch_details session branch) =
    match getitem branch "branch_name" with
    | Ok name =>
        Get (BranchDetail name) ::
        match user_details session branch with
        | Ok _ => []
        | Raise e => [Print (ErrorFetchingDetails name e)]
        end
    | Raise _ => []
    end.
Proof.
  unfold fetch_branch_details.
  match goal with |- context [try_except ?b ?h] => set (body := b); set (handler := h) end.
  assert (Hbody : body = IO (record ← user_details session branch; Ok (Some record))
                            match getitem branch "branch_name" with
                            | Ok name => [Get (BranchDetail name)]
                            | Raise _ => []
                            end).
  { subst body. unfold user_details. lift_step.
    destruct (getitem branch "branch_name") as [name|e0]; [|done].
    unfold get, mbind at 1, io_bind at 1. cbn [mbind result_bind outcome trace app].
    destruct (session (BranchDetail name)) as [response|e]; [|done].
    cbn zeta. lift_step.
    destruct (raise_for_status response); [|done]. lift_step.
    destruct (json response) as [details|e]; [|done]. lift_step.
    destruct (path details ["commit"; "author"; "login"]) as [author|e]; [|done]. lift_step.
    destruct (path details ["commit"; "commit"; "author"; "date"])
      as [last_updated|e]; [|done]. lift_step.
    destruct (path details ["commit"; "commit"; "message"]) as [message|e]; [|done]. lift_step.
    destruct (startswith message "Merge") as [is_merged|e]; [|done]. lift_step.
    destruct (getitem details "protected") as [is_protected|e]; [|done]. lift_step.
    by destruct branch. }
  rewrite outcome_try_except, trace_try_except, Hbody. clear Hbody. clearbody body.
  cbn [outcome trace].
  destruct (user_details session branch) as [record|e]; cbn [mbind result_bind].
  - split; [done|]. destruct (getitem branch "branch_name"); by rewrite ?app_nil_r.
  - subst handler. cbn beta. lift_step.
    by destruct (getitem branch "branch_name").
Qed.

Lemma fetch_branch_details_outcome session branch :
  outcome (fetch_branch_details session branch) =
  match user_details session branch with
  | Ok record => Ok (Some record)
  | Raise e => getitem branch "branch_name";; Ok None
  end.
Proof. apply fetch_branch_details_run. Qed.

Lemma fetch_branch_details_trace session branch :
  trace (fetch_branch_details session branch) =
  match getitem branch "branch_name" with
  | Ok name =>
      Get (BranchDetail name) ::
      match user_details session branch with
      | Ok _ => []
      | Raise e => [Print (ErrorFetchingDetails name e)]
      end
  | Raise _ => []
  end.
Proof. apply fetch_branch_details_run. Qed.

Lemma detail_of_Some session branch record :
  detail_of session branch = Some record <->
  outcome (fetch_branch_details session branch) = Ok (Some record).
Proof.
  unfold detail_of. rewrite fetch_branch_details_outcome.
  destruct (user_details session branch) as [r|e] eqn:Hr; cbn.
  - rewrite (user_details_truthy _ _ _ Hr). split; congruence.
  - destruct (getitem branch "branch_name"); cbn; split; done.
Qed.

Lemma fetch_ref_inv session name sha record :
  outcome (fetch_branch_details session (BranchRef name sha)) = Ok (Some record) ->
  exists response details author last_updated message is_protected,
    session (BranchDetail name) = Ok response /\
    raise_for_status response = Ok tt /\
    json response = Ok details /\
    path details ["commit"; "author"; "login"] = Ok author /\
    path details ["commit"; "commit"; "author"; "date"] = Ok last_updated /\
    path details ["commit"; "commit"; "message"] = Ok (VStr message) /\
    getitem details "protected" = Ok is_protected /\
    record = VDict [("author", author); ("last_updated", last_updated);
                    ("is_merged", VBool (String.prefix "Merge" message));
                    ("is_protected", is_protected);
                    ("branch_name", name); ("commit_sha", sha)].
Proof.
  rewrite fetch_branch_details_outcome.
  destruct (user_details session (BranchRef name sha)) as [r|e] eqn:H;
    [intros [= <-]|discriminate].
  unfold user_details in H.
  change (getitem (BranchRef name sha) "branch_name") with (Ok name) in H.
  cbn -[path getitem startswith dict_update] in H.
  bind_inv H as response. bind_inv H as ok. bind_inv H as details.
  bind_inv H as author. bind_inv H as last_updated. bind_inv H as message.
  destruct message as [| | | |message| |]; try done.
  cbn -[path getitem dict_update] in H.
  bind_inv H as is_protected. cbn in H. injection H as <-. destruct ok.
  by exists response, details, author, last_updated, message, is_protected.
Qed.

Lemma collect_details_outcome completed acc :
  outcome (collect_details completed acc) = Ok (acc ++ omap kept completed).
Proof.
  revert acc. induction completed as [|future rest IH]; intros acc.
  - cbn. by rewrite app_nil_r.
  - cbn [collect_details omap]. rewrite outcome_bind. unfold try_except.
    destruct future as [[user_details|]|e]; cbn.
    + destruct (truthy user_details); cbn; rewrite IH; by rewrite <- ?(assoc_L (++)).
    + by rewrite IH.
    + by rewrite IH.
Qed.

Lemma collect_details_trace completed acc :
  trace (collect_details completed acc) = loop_lines completed.
Proof.
  revert acc. induction completed as [|future rest IH]; intros acc; [done|].
  cbn [collect_details]. rewrite trace_bind. unfold try_except.
  destruct future as [[user_details|]|e]; cbn.
  - destruct (truthy user_details); cbn; by rewrite IH.
  - by rewrite IH.
  - by rewrite IH.
Qed.

Lemma get_branch_details_outcome session order branches :
  outcome (get_branch_details session order branches)
  = Ok (omap (detail_of session) (as_completed order branches)).
Proof.
  unfold get_branch_details. rewrite outcome_bind, submit_all_outcome. cbn.
  rewrite as_completed_map, collect_details_outcome. cbn. f_equal.
  induction (as_completed order branches) as [|b bs IH]; [done|].
  cbn. unfold detail_of at 2. rewrite IH. done.
Qed.

Lemma get_branch_details_trace session order branches :
  trace (get_branch_details session order branches) =
  concat (map (fun branch => trace (fetch_branch_details session branch)) branches)
  ++ loop_lines (as_completed order
       (map (fun branch => outcome (fetch_branch_details session branch)) branches)).
Proof.
  unfold get_branch_details.
  rewrite trace_bind, submit_all_trace, submit_all_outcome.
  by rewrite collect_details_trace.
Qed.

Lemma get_branch_details_perm session order branches records :
  completion_order (length branches) order ->
  outcome (get_branch_details session order branches) = Ok records ->
  records ≡ₚ omap (detail_of session) branches.
Proof.
  intros Horder. rewrite get_branch_details_outcome. intros [= <-].
  by rewrite as_completed_perm.
Qed.

Lemma records_of_fetched session branches order :
  Forall2 (fun record i =>
             exists branch,
               branches !! i = Some branch /\
               outcome (fetch_branch_details session branch) = Ok (Some record))
          (omap (fun i => branches !! i ≫= detail_of session) order)
          (fetched session branches order).
Proof.
  unfold fetched. induction order as [|i order IH]; [constructor|].
  cbn [omap list_omap]. rewrite filter_cons.
  destruct (branches !! i ≫= detail_of session) as [record|] eqn:Hi.
  - rewrite decide_True by eauto. constructor; [|done].
    destruct (branches !! i) as [branch|]; [|done]. cbn in Hi.
    exists branch. split; [done|]. by apply detail_of_Some.
  - rewrite decide_False; [done|]. by intros [? ?].
Qed.

Lemma fetched_NoDup session branches order :
  completion_order (length branches) order -> NoDup (fetched session branches order).
Proof. intros H. apply NoDup_filter. by eapply completion_order_NoDup. Qed.

Lemma fetched_elem session branches order i branch record :
  completion_order (length branches) order ->
  branches !! i = Some branch ->
  outcome (fetch_branch_details session branch) = Ok (Some record) ->
  i ∈ fetched session branches order.
Proof.
  intros Horder Hi Hfetch. apply list_elem_of_filter. split.
  - rewrite Hi. cbn. exists record. by apply detail_of_Some.
  - eapply completion_order_elem; [done|]. by eapply lookup_lt_Some.
Qed.


(** ** Lemmas on failing detail answers *)






(** ** Lemmas on the names of two runs *)

Lemma names_of_app session branches branches' :
  names_of session (branches ++ branches')
  = names_of session branches ++ names_of session branches'.
Proof. unfold names_of, branch_names. by rewrite !omap_app. Qed.

Lemma names_of_perm session branches branches' :
  branches ≡ₚ branches' -> names_of session branches ≡ₚ names_of session branches'.
Proof. intros H. unfold names_of, branch_names. by rewrite H. Qed.

Lemma names_of_records session order branches records name :
  completion_order (length branches) order ->
  outcome (get_branch_details session order branches) = Ok records ->
  name ∈ branch_names records <-> name ∈ names_of session branches.
Proof.
  intros Horder Hout. unfold names_of, branch_names.
  by rewrite (get_branch_details_perm _ _ _ _ Horder Hout).
Qed.

Lemma empty_page_no_refs session page :
  empty_page session page = true -> page_refs session page = [].
Proof.
  unfold empty_page, page_refs.
  destruct (page_result session page) as [branches|]; [|done].
  by destruct (truthy branches).
Qed.

Lemma names_of_merged session pages name :
  name ∈ names_of session (merged session pages) ->
  exists page, page ∈ pages /\ name ∈ names_of session (page_refs session page).
Proof.
  induction pages as [|page rest IH]; cbn [merged]; intros H.
  - by apply elem_of_nil in H.
  - destruct (empty_page session page); [by apply elem_of_nil in H|].
    rewrite names_of_app in H. apply elem_of_app in H as [H|H].
    + exists page. split; [apply list_elem_of_here|done].
    + destruct (IH H) as (p & Hp & Hname). exists p.
      split; [by apply list_elem_of_further|done].
Qed.

(** With an empty page taken first nothing is merged; with one page
    taken before it, the refs of that page are. *)
Lemma empty_page_taken_first session refs i empty :
  first_page session = Ok (refs, 100) ->
  range 2 11 !! i = Some empty ->
  empty_page session empty = true ->
  completion_order 9 (taken_first [i] 9) /\
  outcome (get_branches session (taken_first [i] 9)) = Ok refs.
Proof.
  intros Hfirst Hi Hempty. split.
  - apply taken_first_order; [apply NoDup_singleton|].
    intros k Hk. apply list_elem_of_singleton in Hk as ->.
    apply lookup_lt_Some in Hi. exact Hi.
  - rewrite get_branches_outcome, Hfirst. cbn [Z.eqb Pos.eqb].
    unfold taken_first. rewrite as_completed_app.
    unfold as_completed at 1. cbn [omap list_omap]. rewrite Hi. cbn [app merged].
    by rewrite Hempty, app_nil_r.
Qed.

Lemma empty_page_taken_second session refs i j empty page :
  first_page session = Ok (refs, 100) ->
  range 2 11 !! i = Some empty ->
  range 2 11 !! j = Some page ->
  empty_page session empty = true ->
  empty_page session page = false ->
  completion_order 9 (taken_first [j; i] 9) /\
  outcome (get_branches session (taken_first [j; i] 9))
  = Ok (refs ++ page_refs session page).
Proof.
  intros Hfirst Hi Hj Hempty Hpage. split.
  - apply taken_first_order.
    + apply NoDup_cons. split; [|apply NoDup_singleton].
      intros Hji. apply list_elem_of_singleton in Hji as ->. congruence.
    + apply lookup_lt_Some in Hi, Hj.
      intros k [->|Hk]%elem_of_cons; [exact Hj|].
      apply list_elem_of_singleton in Hk as ->. exact Hi.
  - rewrite get_branches_outcome, Hfirst. cbn [Z.eqb Pos.eqb].
    unfold taken_first. rewrite as_completed_app.
    unfold as_completed at 1. cbn [omap list_omap]. rewrite Hi, Hj. cbn [app merged].
    by rewrite Hempty, Hpage, app_nil_r.
Qed.

Lemma order_independent_names session order1 order1' order2 order2' :
  order_independent session ->
  names_deterministic session order1 order1' order2 order2'.
Proof.
  intros Hind branches branches' records records' H1 H1' Hb Hb' H2 H2' Hr Hr' name.
  rewrite (names_of_records _ _ _ _ _ H2 Hr), (names_of_records _ _ _ _ _ H2' Hr').
  destruct (first_page session) as [[refs n]|e] eqn:Hfirst;
    [|by rewrite get_branches_outcome, Hfirst in Hb].
  destruct (Z.eqb_spec n 100) as [->|Hn].
  - destruct (Hind refs Hfirst) as [Hfull|Hsame].
    + assert (Hperm : branches ≡ₚ branches').
      { exact (get_branches_perm session order1 order1' _ _
                 (fun _ _ => Hfull) H1 H1' Hb Hb'). }
      by rewrite (names_of_perm _ _ _ Hperm).
    + rewrite get_branches_outcome, Hfirst in Hb, Hb'. cbn [Z.eqb Pos.eqb] in Hb, Hb'.
      injection Hb as <-. injection Hb' as <-.
      rewrite !names_of_app, !elem_of_app.
      assert (Hin : forall order,
                name ∈ names_of session (merged session (as_completed order (range 2 11))) ->
                name ∈ names_of session refs).
      { intros order (page & Hpage & Hname)%names_of_merged.
        apply (Hsame page); [|done]. by eapply as_completed_elem. }
      split; (intros [?|?]; [by left|left; by eapply Hin]).
  - rewrite get_branches_outcome, Hfirst in Hb, Hb'.
    destruct (Z.eqb_spec n 100) as [?|_]; [done|].
    injection Hb as <-. by injection Hb' as <-.
Qed.

Lemma names_order_independent session :
  (forall order1 order1' order2 order2',
     names_deterministic session order1 order1' order2 order2') ->
  order_independent session.
Proof.
  intros Hdet refs Hfirst.
  destruct (decide (Forall (fun page => empty_page session page = false) (range 2 11)))
    as [Hall|Hsome].
  { left. intros page Hpage. by eapply (proj1 (Forall_forall _ _) Hall). }
  right. intros page name Hpage Hname.
  apply not_Forall_Exists, Exists_exists in Hsome; [|apply _].
  destruct Hsome as (empty & Hempty_in & Hempty).
  apply not_false_is_true in Hempty.
  destruct (empty_page session page) eqn:Hnot_empty.
  { rewrite (empty_page_no_refs _ _ Hnot_empty) in Hname. by apply elem_of_nil in Hname. }
  apply list_elem_of_lookup in Hempty_in as [i Hi].
  apply list_elem_of_lookup in Hpage as [j Hj].
  destruct (empty_page_taken_first _ _ _ _ Hfirst Hi Hempty) as [H1 Hb].
  destruct (empty_page_taken_second _ _ _ _ _ _ Hfirst Hi Hj Hempty Hnot_empty)
    as [H1' Hb'].
  assert (Hrun : forall branches,
            completion_order (length branches) (seq 0 (length branches)) /\
            outcome (get_branch_details session (seq 0 (length branches)) branches)
            = Ok (omap (detail_of session) branches)).
  { intros branches. split; [by unfold completion_order|].
    by rewrite get_branch_details_outcome, as_completed_seq. }
  destruct (Hrun refs) as [H2 Hr].
  destruct (Hrun (refs ++ page_refs session page)) as [H2' Hr'].
  apply (Hdet _ _ _ _ _ _ _ _ H1 H1' Hb Hb' H2 H2' Hr Hr' name).
  change (name ∈ names_of session (refs ++ page_refs session page)).
  rewrite names_of_app. apply elem_of_app. by right.
Qed.

Lemma range_2_11 : range 2 11 = [2; 3; 4; 5; 6; 7; 8; 9; 10].
Proof. reflexivity. Qed.

(** ** The scenarios of the specification *)

(** Two listed branches, the detail request for "dev" answered 404: only
    the record of "main" is written, and the failure of "dev" is logged. *)
Example end_to_end_dev_fails :
  main acme (seq 0 9) [0; 1]%nat =
  IO (Ok [acme_record])
     [Get (ListPage 1);
      Get (BranchDetail (VStr "main")); Get (BranchDetail (VStr "dev"));
      Print (ErrorFetchingDetails (VStr "dev") (HTTPError 404))].
Proof. vm_compute. reflexivity. Qed.

(** ** The listing: pages and their merging *)

(** C1, as worded, fails: with a full page 1, an empty page 2 taken first
    and a page 3 that succeeds with one branch, the request for page 3 is
    sent and answered, but its branch is not in the returned list. *)
Lemma empty_page_drops_later_siblings : ~ siblings_merged demo (seq 0 9).
Proof.
  intros H.
  specialize (H (replicate 100 (listed "main" "a1")) 2 3
                (VList [listed "dev" "b2"])
                [BranchRef (VStr "dev") (VStr "b2")]
                (replicate 100 (BranchRef (VStr "main") (VStr "a1")))).
  assert (Hin : BranchRef (VStr "dev") (VStr "b2")
                ∈ replicate 100 (BranchRef (VStr "main") (VStr "a1"))).
  { apply H;
      first [ reflexivity
            | by unfold completion_order
            | vm_compute; by repeat constructor ]. }
  apply elem_of_replicate_inv in Hin. discriminate Hin.
Qed.

(** C1, amended: when page 1 has exactly 100 branches and the loop meets a
    page whose result is empty, the returned list is the refs of page 1
    followed by the refs of the pages met before the empty one, in that
    order; pages met after it are not merged.  The requests for all of
    pages 2..10 are sent all the same: no task is cancelled. *)
Theorem empty_page_ends_merging session order refs before empty after :
  first_page session = Ok (refs, 100) ->
  as_completed order (range 2 11) = before ++ empty :: after ->
  (forall page, page ∈ before -> empty_page session page = false) ->
  empty_page session empty = true ->
  outcome (get_branches session order)
  = Ok (refs ++ concat (map (page_refs session) before)) /\
  (forall page, page ∈ range 2 11 ->
     Get (ListPage page) ∈ trace (get_branches session order)).
Proof.
  intros Hfirst Horder Hbefore Hempty. split.
  - rewrite get_branches_outcome, Hfirst, Horder. cbn [Z.eqb Pos.eqb].
    rewrite merged_app by done. cbn [merged]. by rewrite Hempty, app_nil_r.
  - intros page Hpage. rewrite get_branches_trace, Hfirst. cbn [Z.eqb Pos.eqb].
    apply list_elem_of_further, elem_of_app. left.
    by apply (list_elem_of_fmap_2 (fun p => Get (ListPage p))).
Qed.

Lemma empty_page_ends_merging_witness :
  first_page demo = Ok (replicate 100 (BranchRef (VStr "main") (VStr "a1")), 100) /\
  as_completed page_3_first (range 2 11) = [3] ++ 2 :: [4; 5; 6; 7; 8; 9; 10] /\
  empty_page demo 3 = false /\
  empty_page demo 2 = true /\
  outcome (get_branches demo page_3_first)
  = Ok (replicate 100 (BranchRef (VStr "main") (VStr "a1"))
        ++ concat (map (page_refs demo) [3])) /\
  Get (ListPage 10) ∈ trace (get_branches demo page_3_first).
Proof.
  assert (Hfirst : first_page demo
                   = Ok (replicate 100 (BranchRef (VStr "main") (VStr "a1")), 100))
    by (vm_compute; reflexivity).
  assert (Horder : as_completed page_3_first (range 2 11)
                   = [3] ++ 2 :: [4; 5; 6; 7; 8; 9; 10]) by reflexivity.
  assert (Hthree : empty_page demo 3 = false) by reflexivity.
  assert (Hbefore : forall page, page ∈ [3] -> empty_page demo page = false).
  { intros page Hpage. apply elem_of_cons in Hpage as [->|Hpage]; [exact Hthree|].
    by apply elem_of_nil in Hpage. }
  assert (Hempty : empty_page demo 2 = true) by reflexivity.
  destruct (empty_page_ends_merging demo page_3_first _ _ _ _
              Hfirst Horder Hbefore Hempty) as [Hout Hsent].
  repeat split; try assumption.
  apply Hsent. rewrite range_2_11. repeat constructor.
Defined.

(** C4: once page 1 is processed the requests sent are page 1 alone, or
    pages 1 to 10 exactly when page 1 had 100 items; when [get_branches]
    raises only page 1 was requested; at most 10 requests are sent; when
    no page holds more than the 100 items asked for, at most 1000
    branches are returned; and pages 2 to 10 are requested if and only if
    the page-1 part ends with a length of exactly 100. *)
Theorem pages_requested session order :
  (forall all_branches,
     outcome (get_branches session order) = Ok all_branches ->
     exists response branches n,
       session (ListPage 1) = Ok response /\
       json response = Ok branches /\
       len branches = Ok n /\
       requests (trace (get_branches session order)) =
         if n =? 100 then map ListPage (range 1 11) else [ListPage 1]) /\
  (forall e,
     outcome (get_branches session order) = Raise e ->
     requests (trace (get_branches session order)) = [ListPage 1]) /\
  (length (requests (trace (get_branches session order))) <= 10)%nat /\
  (completion_order 9 order ->
   (forall page items,
      page_result session page = Ok (VList items) -> (length items <= 100)%nat) ->
   forall all_branches,
     outcome (get_branches session order) = Ok all_branches ->
     (length all_branches <= 1000)%nat) /\
  (requests (trace (get_branches session order)) = map ListPage (range 1 11) <->
   exists refs, first_page session = Ok (refs, 100)).
Proof.
  rewrite requests_get_branches, get_branches_outcome.
  destruct (first_page session) as [[refs n]|e] eqn:Hfirst.
  - destruct (first_page_inv _ _ _ Hfirst)
      as (response & branches & items & Hget & Hstatus & Hjson & Hiter & Hcomp & Hlen).
    split; [|split; [|split; [|split]]].
    + intros _ _. by exists response, branches, n.
    + intros e H. by destruct (n =? 100).
    + destruct (n =? 100); [vm_compute|cbn]; lia.
    + intros Horder Hsize all_branches H.
      assert (Hrefs : (length refs <= 100)%nat).
      { assert (Hpage : page_result session 1 = Ok branches).
        { rewrite page_result_eq, Hget. cbn. by rewrite Hstatus. }
        assert (Hbr : branch_refs branches = Ok refs).
        { unfold branch_refs. rewrite Hiter. done. }
        destruct (branch_refs_length _ _ Hbr) as [->|(items' & -> & ->)]; cbn; [lia|].
        by eapply Hsize. }
      destruct (n =? 100); injection H as <-; [|lia].
      rewrite length_app.
      pose proof (merged_length session Hsize (as_completed order (range 2 11))) as Hm.
      assert (Hnine : length (as_completed order (range 2 11)) = 9%nat).
      { by rewrite (as_completed_perm order (range 2 11) Horder). }
      lia.
    + destruct (Z.eqb_spec n 100) as [->|Hne].
      * split; [by exists refs|done].
      * split; [discriminate|]. intros [refs' [= _ ->]]. by destruct Hne.
  - split; [|split; [|split; [|split]]]; try done.
    + cbn. lia.
    + split; [discriminate|]. by intros [refs H].
Qed.

Lemma pages_requested_witness :
  completion_order 9 page_3_first /\
  (forall page items,
     page_result full page = Ok (VList items) -> (length items <= 100)%nat) /\
  outcome (get_branches full page_3_first)
  = Ok (replicate 100 (BranchRef (VStr "main") (VStr "a1"))
        ++ replicate 9 (BranchRef (VStr "dev") (VStr "b2"))) /\
  requests (trace (get_branches full page_3_first)) = map ListPage (range 1 11) /\
  (length (replicate 100 (BranchRef (VStr "main") (VStr "a1"))
           ++ replicate 9 (BranchRef (VStr "dev") (VStr "b2"))) <= 1000)%nat.
Proof.
  assert (Horder : completion_order 9 page_3_first) by apply perm_swap.
  assert (Hsize : forall page items,
            page_result full page = Ok (VList items) -> (length items <= 100)%nat).
  { intros page items H. rewrite page_result_eq in H.
    destruct (Z.eq_dec page 1) as [->|Hne].
    - injection H as <-. vm_compute. lia.
    - assert (Hpage : full (ListPage page)
                      = success (VList [listed "dev" "b2"])).
      { destruct page as [|[p|p|]|p]; try reflexivity. by destruct Hne. }
      rewrite Hpage in H. injection H as <-. cbn. lia. }
  assert (Hout : outcome (get_branches full page_3_first)
                 = Ok (replicate 100 (BranchRef (VStr "main") (VStr "a1"))
                       ++ replicate 9 (BranchRef (VStr "dev") (VStr "b2"))))
    by (vm_compute; reflexivity).
  destruct (pages_requested full page_3_first) as (Hsent & _ & _ & Hbound & _).
  destruct (Hsent _ Hout) as (response & branches & n & Hget & Hjson & Hlen & Hreq).
  injection Hget as <-. injection Hjson as <-. injection Hlen as <-.
  repeat split; try assumption.
  by apply (Hbound Horder Hsize).
Defined.

(** C5, as worded, fails: a 300 answer to the page-1 request is a
    non-success status, yet [raise_for_status] lets it through and
    [get_branches] returns the branches of its body. *)
Lemma first_page_status_300_returns :
  ~ first_page_status_fatal multiple_choices (seq 0 9).
Proof.
  intros H.
  destruct (H (Response 300 (Some (VList [listed "main" "a1"])))) as [e He].
  - reflexivity.
  - cbn. lia.
  - vm_compute in He. discriminate He.
Qed.

(** C5, amended: when the page-1 request is answered with a 4xx or 5xx
    status, [get_branches] raises the HTTP error of that status, returns
    no branch, sends no other request and prints nothing. *)
Theorem first_page_error_status_is_fatal session order response :
  session (ListPage 1) = Ok response ->
  400 <= status_code response < 600 ->
  get_branches session order
  = IO (Raise (HTTPError (status_code response))) [Get (ListPage 1)].
Proof.
  intros Hget Hstatus.
  assert (Hraise : raise_for_status response = Raise (HTTPError (status_code response))).
  { unfold raise_for_status.
    destruct (Z.leb_spec 400 (status_code response)); [|lia].
    destruct (Z.ltb_spec (status_code response) 600); [done|lia]. }
  unfold get_branches, get. unfold mbind at 1, io_bind at 1.
  cbn [outcome trace]. rewrite Hget.
  unfold mbind at 1, io_bind at 1. unfold lift at 1. cbn [outcome trace].
  rewrite Hraise. done.
Qed.

Lemma first_page_error_status_is_fatal_witness :
  unauthorized (ListPage 1) = Ok (Response 401 None) /\
  400 <= status_code (Response 401 None) < 600 /\
  get_branches unauthorized (seq 0 9) = IO (Raise (HTTPError 401)) [Get (ListPage 1)].
Proof.
  split; [reflexivity|]. split; [cbn; lia|].
  apply (first_page_error_status_is_fatal unauthorized (seq 0 9) (Response 401 None));
    [reflexivity | cbn; lia].
Defined.

(** C9: whatever [get_branches] returns starts with the refs of page 1,
    one per item of the page and in the order of the page, each built
    from the item's name and commit sha; what the later pages add comes
    after them. *)
Theorem first_page_is_prefix session order all_branches :
  outcome (get_branches session order) = Ok all_branches ->
  exists response branches items refs rest,
    session (ListPage 1) = Ok response /\
    json response = Ok branches /\
    iterate branches = Ok items /\
    Forall2 (fun item ref =>
               exists name sha,
                 getitem item "name" = Ok name /\
                 path item ["commit"; "sha"] = Ok sha /\
                 ref = BranchRef name sha) items refs /\
    all_branches = refs ++ rest.
Proof.
  rewrite get_branches_outcome. intros H.
  destruct (first_page session) as [[refs n]|e] eqn:Hfirst; [|done].
  destruct (first_page_inv _ _ _ Hfirst)
    as (response & branches & items & Hget & _ & Hjson & Hiter & Hcomp & _).
  exists response, branches, items, refs.
  exists (if n =? 100 then merged session (as_completed order (range 2 11)) else []).
  repeat split; try done.
  - eapply Forall2_impl; [by apply comprehension_Forall2|].
    intros item ref. apply branch_ref_inv.
  - destruct (n =? 100); injection H as <-; by rewrite ?app_nil_r.
Qed.

Lemma first_page_is_prefix_witness :
  outcome (get_branches demo page_3_first)
  = Ok (replicate 100 (BranchRef (VStr "main") (VStr "a1"))
        ++ [BranchRef (VStr "dev") (VStr "b2")]) /\
  exists refs rest,
    length refs = 100%nat /\
    replicate 100 (BranchRef (VStr "main") (VStr "a1"))
    ++ [BranchRef (VStr "dev") (VStr "b2")] = refs ++ rest.
Proof.
  assert (Hout : outcome (get_branches demo page_3_first)
                 = Ok (replicate 100 (BranchRef (VStr "main") (VStr "a1"))
                       ++ [BranchRef (VStr "dev") (VStr "b2")]))
    by (vm_compute; reflexivity).
  split; [exact Hout|].
  destruct (first_page_is_prefix demo page_3_first _ Hout)
    as (response & branches & items & refs & rest & Hget & Hjson & Hiter & Hrefs & Heq).
  exists refs, rest. split; [|exact Heq].
  injection Hget as <-. injection Hjson as <-. injection Hiter as <-.
  symmetry. exact (Forall2_length _ _ _ Hrefs).
Defined.

(** ** The detail records *)

(** C2: the [is_merged] field of a record is [true] exactly when the
    commit message of the response starts with "Merge"; the test is a
    plain, case-sensitive prefix test. *)
Theorem is_merged_iff_Merge_prefix :
  (forall session name sha record,
     outcome (fetch_branch_details session (BranchRef name sha)) = Ok (Some record) ->
     exists response details message is_merged,
       session (BranchDetail name) = Ok response /\
       json response = Ok details /\
       path details ["commit"; "commit"; "message"] = Ok (VStr message) /\
       getitem record "is_merged" = Ok (VBool is_merged) /\
       (is_merged = true <-> exists rest, message = String.append "Merge" rest)) /\
  startswith (VStr "Merge pull request #1") "Merge" = Ok (VBool true) /\
  startswith (VStr "merge foo") "Merge" = Ok (VBool false) /\
  startswith (VStr "Fix bug") "Merge" = Ok (VBool false).
Proof.
  split; [|done].
  intros session name sha record H.
  destruct (fetch_ref_inv _ _ _ _ H)
    as (response & details & author & last_updated & message & is_protected
        & Hget & _ & Hjson & _ & _ & Hmessage & _ & ->).
  exists response, details, message, (String.prefix "Merge" message).
  repeat split; try done; apply prefix_append.
Qed.

Lemma is_merged_iff_Merge_prefix_witness :
  outcome (fetch_branch_details demo (BranchRef (VStr "main") (VStr "a1")))
  = Ok (Some (demo_record "main" "a1")) /\
  exists message is_merged,
    getitem (demo_record "main" "a1") "is_merged" = Ok (VBool is_merged) /\
    (is_merged = true <-> exists rest, message = String.append "Merge" rest).
Proof.
  assert (Hfetch : outcome (fetch_branch_details demo (BranchRef (VStr "main") (VStr "a1")))
                   = Ok (Some (demo_record "main" "a1")))
    by (vm_compute; reflexivity).
  split; [exact Hfetch|].
  destruct (proj1 is_merged_iff_Merge_prefix demo _ _ _ Hfetch)
    as (response & details & message & is_merged & _ & _ & _ & Hfield & Hiff).
  exists message, is_merged. split; assumption.
Defined.

(** C7: in a record, [author] is the response's [commit.author.login],
    [last_updated] its [commit.commit.author.date] and [is_protected] its
    [protected], each passed through unchanged. *)
Theorem detail_fields_from_response session name sha record :
  outcome (fetch_branch_details session (BranchRef name sha)) = Ok (Some record) ->
  exists response details author last_updated is_protected,
    session (BranchDetail name) = Ok response /\
    json response = Ok details /\
    path details ["commit"; "author"; "login"] = Ok author /\
    getitem record "author" = Ok author /\
    path details ["commit"; "commit"; "author"; "date"] = Ok last_updated /\
    getitem record "last_updated" = Ok last_updated /\
    getitem details "protected" = Ok is_protected /\
    getitem record "is_protected" = Ok is_protected.
Proof.
  intros H.
  destruct (fetch_ref_inv _ _ _ _ H)
    as (response & details & author & last_updated & message & is_protected
        & Hget & _ & Hjson & Hauthor & Hdate & _ & Hprotected & ->).
  by exists response, details, author, last_updated, is_protected.
Qed.

Lemma detail_fields_from_response_witness :
  outcome (fetch_branch_details demo (BranchRef (VStr "main") (VStr "a1")))
  = Ok (Some (demo_record "main" "a1")) /\
  exists details author,
    path details ["commit"; "author"; "login"] = Ok author /\
    getitem (demo_record "main" "a1") "author" = Ok author.
Proof.
  assert (Hfetch : outcome (fetch_branch_details demo (BranchRef (VStr "main") (VStr "a1")))
                   = Ok (Some (demo_record "main" "a1")))
    by (vm_compute; reflexivity).
  split; [exact Hfetch|].
  destruct (detail_fields_from_response demo _ _ _ Hfetch)
    as (response & details & author & last_updated & is_protected
        & _ & _ & Hlogin & Hauthor & _).
  exists details, author. split; assumption.
Defined.

(** C3: each record of [get_branch_details] stands for its own position
    of the input list, no position twice, and carries the name and sha of
    the BranchRef at that position; every BranchRef whose fetch succeeds
    has its position among them, duplicates included; so no name is
    output that was not listed. *)
Theorem records_come_from_refs session order (refs : list (value * value)) :
  completion_order (length refs) order ->
  exists records positions,
    outcome (get_branch_details session order
               (map (fun ref => BranchRef (fst ref) (snd ref)) refs)) = Ok records /\
    NoDup positions /\
    Forall2 (fun record i =>
               exists name sha,
                 refs !! i = Some (name, sha) /\
                 getitem record "branch_name" = Ok name /\
                 getitem record "commit_sha" = Ok sha)
            records positions /\
    (forall i name sha record,
       refs !! i = Some (name, sha) ->
       outcome (fetch_branch_details session (BranchRef name sha)) = Ok (Some record) ->
       i ∈ positions) /\
    (forall name, name ∈ branch_names records -> exists sha, (name, sha) ∈ refs).
Proof.
  set (branches := map (fun ref => BranchRef (fst ref) (snd ref)) refs).
  intros Horder.
  assert (Hlen : length branches = length refs) by apply length_map.
  rewrite <- Hlen in Horder.
  assert (Hrecords : Forall2 (fun record i =>
             exists name sha,
               refs !! i = Some (name, sha) /\
               getitem record "branch_name" = Ok name /\
               getitem record "commit_sha" = Ok sha)
            (omap (fun i => branches !! i ≫= detail_of session) order)
            (fetched session branches order)).
  { eapply Forall2_impl; [apply records_of_fetched|].
    intros record i (branch & Hi & Hfetch). unfold branches in Hi.
    rewrite list_lookup_fmap in Hi.
    destruct (refs !! i) as [[name sha]|]; [|done]. injection Hi as <-.
    destruct (fetch_ref_inv _ _ _ _ Hfetch)
      as (? & ? & ? & ? & ? & ? & _ & _ & _ & _ & _ & _ & _ & ->).
    by exists name, sha. }
  rewrite get_branch_details_outcome, omap_as_completed.
  eexists _, (fetched session branches order). split; [done|].
  split; [by apply fetched_NoDup|]. split; [done|]. split.
  - intros i name sha record Hi Hfetch.
    eapply fetched_elem; [done| |done].
    unfold branches. by rewrite list_lookup_fmap, Hi.
  - intros name Hname. unfold branch_names in Hname.
    apply list_elem_of_omap in Hname as (record & Hrecord & Hget).
    apply list_elem_of_lookup in Hrecord as [k Hk].
    destruct (Forall2_lookup_l _ _ _ _ _ Hrecords Hk)
      as (i & _ & name' & sha & Hi & Hn & _).
    rewrite Hn in Hget. injection Hget as <-.
    exists sha. by eapply list_elem_of_lookup_2.
Qed.

Lemma records_come_from_refs_witness :
  completion_order 3 [2; 0; 1]%nat /\
  exists records positions,
    outcome (get_branch_details acme [2; 0; 1]%nat
               [BranchRef (VStr "main") (VStr "a1");
                BranchRef (VStr "dev") (VStr "b2");
                BranchRef (VStr "main") (VStr "a1")]) = Ok records /\
    NoDup positions /\
    length records = length positions /\
    (0%nat ∈ positions /\ 2%nat ∈ positions).
Proof.
  assert (Horder : completion_order 3 [2; 0; 1]%nat).
  { unfold completion_order. cbn.
    etrans; [apply perm_swap|]. apply perm_skip, perm_swap. }
  split; [exact Horder|].
  destruct (records_come_from_refs acme [2; 0; 1]%nat
              [(VStr "main", VStr "a1"); (VStr "dev", VStr "b2");
               (VStr "main", VStr "a1")] Horder)
    as (records & positions & Hout & Hnodup & Hrecords & Hall & _).
  exists records, positions. split; [exact Hout|]. split; [exact Hnodup|].
  split; [exact (Forall2_length _ _ _ Hrecords)|].
  split.
  - apply (Hall 0%nat (VStr "main") (VStr "a1") acme_record);
      vm_compute; reflexivity.
  - apply (Hall 2%nat (VStr "main") (VStr "a1") acme_record);
      vm_compute; reflexivity.
Defined.

(** C10: every record of [get_branch_details] stands for its own position
    of the input list and is the record the fetch of the branch at that
    position produced, so there are no more records than branches; for an
    empty list nothing is returned, requested or printed. *)
Theorem at_most_one_record_per_branch session order branches :
  (completion_order (length branches) order ->
   exists records positions,
     outcome (get_branch_details session order branches) = Ok records /\
     NoDup positions /\
     Forall2 (fun record i =>
                exists branch,
                  branches !! i = Some branch /\
                  outcome (fetch_branch_details session branch) = Ok (Some record))
             records positions /\
     (length records <= length branches)%nat) /\
  get_branch_details session order [] = IO (Ok []) [].
Proof.
  split.
  - intros Horder. rewrite get_branch_details_outcome, omap_as_completed.
    eexists _, (fetched session branches order). split; [done|].
    split; [by apply fetched_NoDup|]. split; [apply records_of_fetched|].
    rewrite <- (completion_order_length _ _ Horder). apply omap_length_le.
  - unfold get_branch_details. cbn. by rewrite as_completed_nil.
Qed.

Lemma at_most_one_record_per_branch_witness :
  completion_order 2 [1; 0]%nat /\
  exists records,
    outcome (get_branch_details acme [1; 0]%nat
               [BranchRef (VStr "main") (VStr "a1");
                BranchRef (VStr "dev") (VStr "b2")]) = Ok records /\
    (length records <= 2)%nat.
Proof.
  assert (Horder : completion_order 2 [1; 0]%nat) by apply perm_swap.
  split; [exact Horder|].
  destruct (proj1 (at_most_one_record_per_branch acme [1; 0]%nat
                     [BranchRef (VStr "main") (VStr "a1");
                      BranchRef (VStr "dev") (VStr "b2")]) Horder)
    as (records & positions & Hout & _ & _ & Hlen).
  exists records. split; [exact Hout|exact Hlen].
Defined.

(** ** Failures *)




(** ** Two runs against the same answers *)

(** C8, as worded, fails: against the same answers (a full page 1, one
    branch on page 3, an empty page 2), the run whose loop takes page 3
    first outputs the name "dev" and the run whose loop takes page 2
    first does not. *)
Lemma completion_order_changes_names :
  ~ names_deterministic demo (seq 0 9) page_3_first (seq 0 100) (seq 0 101).
Proof.
  intros H.
  pose (branches := replicate 100 (BranchRef (VStr "main") (VStr "a1"))).
  pose (branches' := branches ++ [BranchRef (VStr "dev") (VStr "b2")]).
  pose (records := replicate 100 (demo_record "main" "a1")).
  pose (records' := records ++ [demo_record "dev" "b2"]).
  assert (H1 : completion_order 9 (seq 0 9))
    by (unfold completion_order; vm_compute; reflexivity).
  assert (H1' : completion_order 9 page_3_first) by apply perm_swap.
  assert (Hb : outcome (get_branches demo (seq 0 9)) = Ok branches)
    by (vm_compute; reflexivity).
  assert (Hb' : outcome (get_branches demo page_3_first) = Ok branches')
    by (vm_compute; reflexivity).
  assert (H2 : completion_order (length branches) (seq 0 100))
    by (unfold completion_order; vm_compute; reflexivity).
  assert (H2' : completion_order (length branches') (seq 0 101))
    by (unfold completion_order; vm_compute; reflexivity).
  assert (Hr : outcome (get_branch_details demo (seq 0 100) branches) = Ok records)
    by (vm_compute; reflexivity).
  assert (Hr' : outcome (get_branch_details demo (seq 0 101) branches') = Ok records')
    by (vm_compute; reflexivity).
  pose proof (H branches branches' records records' H1 H1' Hb Hb' H2 H2' Hr Hr'
                (VStr "dev")) as Hiff.
  assert (E : branch_names records = replicate 100 (VStr "main"))
    by (vm_compute; reflexivity).
  assert (E' : branch_names records' = replicate 100 (VStr "main") ++ [VStr "dev"])
    by (vm_compute; reflexivity).
  rewrite E, E' in Hiff.
  assert (Hin : VStr "dev" ∈ replicate 100 (VStr "main")).
  { apply Hiff, elem_of_app. right. apply list_elem_of_here. }
  apply elem_of_replicate_inv in Hin. discriminate Hin.
Qed.

(** C8, amended: two runs against the same answers output the same set
    of [branch_name] values, whatever the completion orders, when page 1
    is not a full page, or no page 2..10 gives an empty result, or no
    page 2..10 adds a name to those output for page 1 (as when all of
    them are empty).  These are the only sessions of which the claim
    holds: for any other, two completion orders give different sets. *)
Theorem branch_names_deterministic session :
  order_independent session <->
  (forall order1 order1' order2 order2',
     names_deterministic session order1 order1' order2 order2').
Proof.
  split.
  - intros Hind order1 order1' order2 order2'. by apply order_independent_names.
  - apply names_order_independent.
Qed.

Lemma branch_names_deterministic_witness :
  order_independent full /\
  order_independent hundred /\
  completion_order 9 (seq 0 9) /\
  completion_order 9 page_3_first /\
  (VStr "dev" ∈ branch_names (replicate 100 (demo_record "main" "a1")
                               ++ replicate 9 (demo_record "dev" "b2")) <->
   VStr "dev" ∈ branch_names (replicate 9 (demo_record "dev" "b2")
                               ++ replicate 100 (demo_record "main" "a1"))) /\
  names_deterministic hundred (seq 0 9) page_3_first (seq 0 100) (seq 0 100).
Proof.
  pose (branches := replicate 100 (BranchRef (VStr "main") (VStr "a1"))
                    ++ replicate 9 (BranchRef (VStr "dev") (VStr "b2"))).
  pose (records := replicate 100 (demo_record "main" "a1")
                   ++ replicate 9 (demo_record "dev" "b2")).
  pose (records' := replicate 9 (demo_record "dev" "b2")
                    ++ replicate 100 (demo_record "main" "a1")).
  pose (dev_first := (seq 100 9 ++ seq 0 100)%nat).
  assert (Hfull : order_independent full).
  { intros refs _. left. intros page Hpage. rewrite range_2_11 in Hpage.
    repeat (apply elem_of_cons in Hpage as [->|Hpage]; [reflexivity|]).
    by apply elem_of_nil in Hpage. }
  assert (Hhundred : order_independent hundred).
  { intros refs _. right. intros page name Hpage Hname. rewrite range_2_11 in Hpage.
    repeat (apply elem_of_cons in Hpage as [->|Hpage];
            [by apply elem_of_nil in Hname|]).
    by apply elem_of_nil in Hpage. }
  assert (H1 : completion_order 9 (seq 0 9))
    by (unfold completion_order; vm_compute; reflexivity).
  assert (H1' : completion_order 9 page_3_first) by apply perm_swap.
  assert (Hb : outcome (get_branches full (seq 0 9)) = Ok branches)
    by (vm_compute; reflexivity).
  assert (Hb' : outcome (get_branches full page_3_first) = Ok branches)
    by (vm_compute; reflexivity).
  assert (H2 : completion_order (length branches) (seq 0 109))
    by (unfold completion_order; vm_compute; reflexivity).
  assert (H2' : completion_order (length branches) dev_first).
  { unfold completion_order. change (length branches) with (100 + 9)%nat.
    rewrite seq_app. apply Permutation_app_comm. }
  assert (Hr : outcome (get_branch_details full (seq 0 109) branches) = Ok records)
    by (vm_compute; reflexivity).
  assert (Hr' : outcome (get_branch_details full dev_first branches) = Ok records')
    by (vm_compute; reflexivity).
  split; [exact Hfull|]. split; [exact Hhundred|].
  split; [exact H1|]. split; [exact H1'|]. split.
  - exact (proj1 (branch_names_deterministic full) Hfull (seq 0 9) page_3_first
             (seq 0 109) dev_first branches branches records records'
             H1 H1' Hb Hb' H2 H2' Hr Hr' (VStr "dev")).
  - exact (proj1 (branch_names_deterministic hundred) Hhundred (seq 0 9) page_3_first
             (seq 0 100) (seq 0 100)).
Defined.

(** ** Further lemmas *)

Lemma io_eta {A} (m : io A) : m = IO (outcome m) (trace m).
Proof. by destruct m. Qed.

Lemma first_page_of_list session response items refs :
  session (ListPage 1) = Ok response ->
  raise_for_status response = Ok tt ->
  json response = Ok (VList items) ->
  comprehension branch_ref items = Ok refs ->
  first_page session = Ok (refs, Z.of_nat (length items)).
Proof.
  intros Hget Hstatus Hjson Hrefs. unfold first_page, branch_refs.
  rewrite Hget. cbn. rewrite Hstatus. cbn. rewrite Hjson. cbn. by rewrite Hrefs.
Qed.

Lemma get_branches_fatal session order e :
  first_page session = Raise e ->
  get_branches session order = IO (Raise e) [Get (ListPage 1)].
Proof.
  intros H. rewrite (io_eta (get_branches session order)).
  by rewrite get_branches_outcome, get_branches_trace, H.
Qed.

Lemma comprehension_app_fails {A B} (f : A -> result B) before x after e :
  Forall (fun y => exists z, f y = Ok z) before ->
  f x = Raise e ->
  comprehension f (before ++ x :: after) = Raise e.
Proof.
  intros Hbefore Hx. induction Hbefore as [|y before [z Hy] _ IH]; cbn.
  - by rewrite Hx.
  - by rewrite Hy, IH.
Qed.

(** ** More on the listing *)

(** X1: a first page of any length other than 100, shorter or longer, is
    the whole result: one request, nothing printed, whatever the order. *)
Theorem other_lengths_stop_at_page_1 session order response items refs :
  session (ListPage 1) = Ok response ->
  raise_for_status response = Ok tt ->
  json response = Ok (VList items) ->
  comprehension branch_ref items = Ok refs ->
  length items <> 100%nat ->
  get_branches session order = IO (Ok refs) [Get (ListPage 1)].
Proof.
  intros Hget Hstatus Hjson Hrefs Hlen.
  pose proof (first_page_of_list _ _ _ _ Hget Hstatus Hjson Hrefs) as Hfirst.
  rewrite (io_eta (get_branches session order)).
  rewrite get_branches_outcome, get_branches_trace, Hfirst.
  destruct (Z.eqb_spec (Z.of_nat (length items)) 100) as [Heq|_]; [lia|done].
Qed.

Lemma other_lengths_stop_at_page_1_witness :
  acme (ListPage 1) = success (VList [listed "main" "a1"; listed "dev" "b2"]) /\
  get_branches acme page_3_first
  = IO (Ok [BranchRef (VStr "main") (VStr "a1"); BranchRef (VStr "dev") (VStr "b2")])
       [Get (ListPage 1)].
Proof.
  split; [reflexivity|].
  apply (other_lengths_stop_at_page_1 acme page_3_first
           (Response 200 (Some (VList [listed "main" "a1"; listed "dev" "b2"])))
           [listed "main" "a1"; listed "dev" "b2"]);
    first [reflexivity | cbn; lia].
Defined.

Lemma printed_gets (rs : list request) : printed (map Get rs) = [].
Proof. induction rs as [|r rs IH]; [done|exact IH]. Qed.

Lemma requests_gets (rs : list request) : requests (map Get rs) = rs.
Proof. induction rs as [|r rs IH]; [done|]. cbn. by rewrite <- IH at 2. Qed.

Lemma get_branches_all_empty session order refs :
  first_page session = Ok (refs, 100) ->
  (forall page, page ∈ range 2 11 -> empty_page session page = true) ->
  completion_order 9 order ->
  get_branches session order
  = IO (Ok refs) (map Get (map ListPage (range 1 11))).
Proof.
  intros Hfirst Hempty Horder.
  rewrite (io_eta (get_branches session order)).
  rewrite get_branches_outcome, get_branches_trace, Hfirst. cbn [Z.eqb Pos.eqb].
  pose proof (as_completed_perm order (range 2 11) Horder) as Hperm.
  destruct (as_completed order (range 2 11)) as [|page pages] eqn:Hpages.
  { apply Permutation_length in Hperm. discriminate Hperm. }
  assert (Hpage : empty_page session page = true).
  { apply Hempty. rewrite <- Hperm. apply list_elem_of_here. }
  cbn [merged page_lines]. rewrite Hpage, !app_nil_r. done.
Qed.

(** X2: a repository of exactly 100 branches: page 1 is full, so pages 2
    to 10 are all requested, once each; each comes back empty, and the
    result is the 100 refs of page 1 with nothing printed, whatever the
    order in which the pages complete. *)
Theorem exactly_100_branches session order response items refs :
  session (ListPage 1) = Ok response ->
  raise_for_status response = Ok tt ->
  json response = Ok (VList items) ->
  comprehension branch_ref items = Ok refs ->
  length items = 100%nat ->
  (forall page, page ∈ range 2 11 -> empty_page session page = true) ->
  completion_order 9 order ->
  outcome (get_branches session order) = Ok refs /\
  length refs = 100%nat /\
  requests (trace (get_branches session order)) ≡ₚ map ListPage (range 1 11) /\
  printed (trace (get_branches session order)) = [].
Proof.
  intros Hget Hstatus Hjson Hrefs Hlen Hempty Horder.
  pose proof (first_page_of_list _ _ _ _ Hget Hstatus Hjson Hrefs) as Hfirst.
  rewrite Hlen in Hfirst. change (Z.of_nat 100) with 100 in Hfirst.
  rewrite (get_branches_all_empty _ _ _ Hfirst Hempty Horder). cbn [outcome trace].
  split; [done|]. split; [by rewrite (comprehension_length _ _ _ Hrefs)|].
  by rewrite requests_gets, printed_gets.
Qed.

Lemma exactly_100_branches_witness :
  length (replicate 100 (listed "main" "a1")) = 100%nat /\
  (forall page, page ∈ range 2 11 -> empty_page hundred page = true) /\
  completion_order 9 page_3_first /\
  outcome (get_branches hundred page_3_first)
  = Ok (replicate 100 (BranchRef (VStr "main") (VStr "a1"))) /\
  printed (trace (get_branches hundred page_3_first)) = [].
Proof.
  assert (Hempty : forall page, page ∈ range 2 11 -> empty_page hundred page = true).
  { intros page Hpage. rewrite range_2_11 in Hpage.
    repeat (apply elem_of_cons in Hpage as [->|Hpage]; [reflexivity|]).
    by apply elem_of_nil in Hpage. }
  assert (Horder : completion_order 9 page_3_first) by apply perm_swap.
  assert (Hrefs : comprehension branch_ref (replicate 100 (listed "main" "a1"))
                  = Ok (replicate 100 (BranchRef (VStr "main") (VStr "a1"))))
    by (vm_compute; reflexivity).
  assert (Hlen : length (replicate 100 (listed "main" "a1")) = 100%nat)
    by reflexivity.
  destruct (exactly_100_branches hundred page_3_first
              (Response 200 (Some (VList (replicate 100 (listed "main" "a1")))))
              (replicate 100 (listed "main" "a1")) _
              eq_refl eq_refl eq_refl Hrefs Hlen Hempty Horder)
    as (Hout & _ & _ & Hprinted).
  split; [exact Hlen|]. split; [exact Hempty|]. split; [exact Horder|].
  split; [exact Hout|exact Hprinted].
Defined.

(** X3: what goes wrong on page 1 is not caught.  An exception of the
    request itself, a body that is not JSON, a body that is a JSON object
    and not an array (such as an error object), and an item without a
    field the code reads each end [get_branches] with that exception,
    after one request and without output. *)
Theorem first_page_defects_are_fatal session order :
  (forall e,
     session (ListPage 1) = Raise e ->
     get_branches session order = IO (Raise e) [Get (ListPage 1)]) /\
  (forall response,
     session (ListPage 1) = Ok response ->
     raise_for_status response = Ok tt ->
     body response = None ->
     get_branches session order = IO (Raise JSONDecodeError) [Get (ListPage 1)]) /\
  (forall response entry entries,
     session (ListPage 1) = Ok response ->
     raise_for_status response = Ok tt ->
     json response = Ok (VDict (entry :: entries)) ->
     get_branches session order = IO (Raise TypeError) [Get (ListPage 1)]) /\
  (forall response before item after e,
     session (ListPage 1) = Ok response ->
     raise_for_status response = Ok tt ->
     json response = Ok (VList (before ++ item :: after)) ->
     Forall well_formed_item before ->
     branch_ref item = Raise e ->
     get_branches session order = IO (Raise e) [Get (ListPage 1)]).
Proof.
  split; [|split; [|split]].
  - intros e Hget. apply get_branches_fatal. unfold first_page. by rewrite Hget.
  - intros response Hget Hstatus Hbody. apply get_branches_fatal.
    unfold first_page, json. rewrite Hget. cbn. rewrite Hstatus. cbn. by rewrite Hbody.
  - intros response [key v] entries Hget Hstatus Hjson. apply get_branches_fatal.
    unfold first_page. rewrite Hget. cbn. rewrite Hstatus. cbn. by rewrite Hjson.
  - intros response before item after e Hget Hstatus Hjson Hbefore Hitem.
    apply get_branches_fatal.
    unfold first_page, branch_refs. rewrite Hget. cbn. rewrite Hstatus. cbn.
    rewrite Hjson. cbn. by rewrite (comprehension_app_fails _ _ _ _ _ Hbefore Hitem).
Qed.

Lemma first_page_defects_are_fatal_witness :
  get_branches error_object (seq 0 9) = IO (Raise TypeError) [Get (ListPage 1)] /\
  get_branches nameless (seq 0 9) = IO (Raise (KeyError "name")) [Get (ListPage 1)].
Proof.
  split.
  - apply (proj1 (proj2 (proj2 (first_page_defects_are_fatal error_object (seq 0 9))))
             (Response 200 (Some (VDict [("message", VStr "Not Found")])))
             ("message", VStr "Not Found") []); reflexivity.
  - apply (proj2 (proj2 (proj2 (first_page_defects_are_fatal nameless (seq 0 9))))
             (Response 200 (Some (VList [listed "main" "a1";
                                         VDict [("commit", VDict [("sha", VStr "b2")])]])))
             [listed "main" "a1"] (VDict [("commit", VDict [("sha", VStr "b2")])]) []);
      try reflexivity.
    apply Forall_cons. split; [|apply Forall_nil_2].
    exists (BranchRef (VStr "main") (VStr "a1")). reflexivity.
Defined.

Lemma merged_provenance session pages ref :
  ref ∈ merged session pages ->
  exists page, page ∈ pages /\ ref ∈ page_refs session page.
Proof.
  induction pages as [|page rest IH]; cbn [merged]; intros H.
  - by apply elem_of_nil in H.
  - destruct (empty_page session page); [by apply elem_of_nil in H|].
    apply elem_of_app in H as [H|H].
    + exists page. split; [apply list_elem_of_here|done].
    + destruct (IH H) as (p & Hp & Href). exists p.
      split; [by apply list_elem_of_further|done].
Qed.

Lemma comprehension_all_ok {A B} (f : A -> result B) xs ys :
  comprehension f xs = Ok ys -> Forall (fun x => exists y, f x = Ok y) xs.
Proof.
  intros H. apply comprehension_Forall2 in H.
  induction H as [|x y xs ys Hx _ IH]; constructor; eauto.
Qed.

Lemma branch_refs_provenance branches refs ref :
  branch_refs branches = Ok refs ->
  ref ∈ refs ->
  exists items item name sha,
    branches = VList items /\
    Forall well_formed_item items /\
    item ∈ items /\
    getitem item "name" = Ok name /\
    path item ["commit"; "sha"] = Ok sha /\
    ref = BranchRef name sha.
Proof.
  intros Hrefs Href.
  destruct (branch_refs_length _ _ Hrefs) as [->|(items & -> & _)];
    [by apply elem_of_nil in Href|].
  unfold branch_refs in Hrefs. cbn in Hrefs.
  pose proof (comprehension_Forall2 _ _ _ Hrefs) as Hall.
  apply list_elem_of_lookup in Href as [i Hi].
  destruct (Forall2_lookup_r _ _ _ _ _ Hall Hi) as (item & Hitem & Hbuilt).
  destruct (branch_ref_inv _ _ Hbuilt) as (name & sha & Hname & Hsha & ->).
  exists items, item, name, sha. repeat split; try done.
  - exact (comprehension_all_ok _ _ _ Hrefs).
  - by eapply list_elem_of_lookup_2.
Qed.

Lemma page_refs_provenance session page ref :
  ref ∈ page_refs session page ->
  exists items item name sha,
    page_result session page = Ok (VList items) /\
    Forall well_formed_item items /\
    item ∈ items /\
    getitem item "name" = Ok name /\
    path item ["commit"; "sha"] = Ok sha /\
    ref = BranchRef name sha.
Proof.
  unfold page_refs. intros H.
  destruct (page_result session page) as [branches|e]; [|by apply elem_of_nil in H].
  destruct (truthy branches); [|by apply elem_of_nil in H].
  destruct (branch_refs branches) as [refs|e] eqn:Hrefs; [|by apply elem_of_nil in H].
  destruct (branch_refs_provenance _ _ _ Hrefs H)
    as (items & item & name & sha & -> & Hrest).
  by exists items, item, name, sha.
Qed.

(** X4: [get_branches] invents nothing.  Each ref it returns is built
    from the name and the commit sha of an item of one of the pages 1 to
    10, a page that was a JSON array with every item well formed. *)
Theorem listed_refs_come_from_pages session order all_branches ref :
  outcome (get_branches session order) = Ok all_branches ->
  ref ∈ all_branches ->
  exists page items item name sha,
    1 <= page <= 10 /\
    page_result session page = Ok (VList items) /\
    Forall well_formed_item items /\
    item ∈ items /\
    getitem item "name" = Ok name /\
    path item ["commit"; "sha"] = Ok sha /\
    ref = BranchRef name sha.
Proof.
  rewrite get_branches_outcome. intros Hout Href.
  destruct (first_page session) as [[refs n]|e] eqn:Hfirst; [|done].
  destruct (first_page_inv _ _ _ Hfirst)
    as (response & branches & items & Hget & Hstatus & Hjson & Hiter & Hcomp & _).
  assert (Hone : ref ∈ refs ->
            exists page items item name sha,
              1 <= page <= 10 /\
              page_result session page = Ok (VList items) /\
              Forall well_formed_item items /\
              item ∈ items /\
              getitem item "name" = Ok name /\
              path item ["commit"; "sha"] = Ok sha /\
              ref = BranchRef name sha).
  { intros H.
    assert (Hrefs : branch_refs branches = Ok refs).
    { unfold branch_refs. by rewrite Hiter. }
    destruct (branch_refs_provenance _ _ _ Hrefs H)
      as (items' & item & name & sha & -> & Hrest).
    exists 1, items', item, name, sha. split; [lia|]. split; [|done].
    rewrite page_result_eq, Hget. cbn. by rewrite Hstatus. }
  destruct (n =? 100); injection Hout as <-; [|by apply Hone].
  apply elem_of_app in Href as [Href|Href]; [by apply Hone|].
  destruct (merged_provenance _ _ _ Href) as (page & Hpage & Hin).
  apply as_completed_elem in Hpage.
  destruct (page_refs_provenance _ _ _ Hin)
    as (items' & item & name & sha & Hrest).
  exists page, items', item, name, sha. split; [|done].
  unfold range in Hpage. apply elem_of_seqZ in Hpage. lia.
Qed.

Lemma listed_refs_come_from_pages_witness :
  outcome (get_branches demo page_3_first)
  = Ok (replicate 100 (BranchRef (VStr "main") (VStr "a1"))
        ++ [BranchRef (VStr "dev") (VStr "b2")]) /\
  exists page items item,
    1 <= page <= 10 /\
    page_result demo page = Ok (VList items) /\
    item ∈ items /\
    getitem item "name" = Ok (VStr "dev").
Proof.
  assert (Hout : outcome (get_branches demo page_3_first)
                 = Ok (replicate 100 (BranchRef (VStr "main") (VStr "a1"))
                       ++ [BranchRef (VStr "dev") (VStr "b2")]))
    by (vm_compute; reflexivity).
  split; [exact Hout|].
  destruct (listed_refs_come_from_pages demo page_3_first _
              (BranchRef (VStr "dev") (VStr "b2")) Hout)
    as (page & items & item & name & sha & Hpage & Hitems & _ & Hitem & Hname & _ & Href).
  { apply elem_of_app. right. apply list_elem_of_here. }
  injection Href as <- _.
  by exists page, items, item.
Defined.

Lemma merged_submseteq session pages :
  merged session pages ⊆+ concat (map (page_refs session) pages).
Proof.
  induction pages as [|page rest IH]; cbn [merged map concat]; [done|].
  destruct (empty_page session page); [apply submseteq_nil_l|].
  by apply submseteq_skips_l.
Qed.

(** X5: nothing is merged twice.  With each future taken once, what
    [get_branches] returns is, as a multiset, part of the refs of pages 1
    to 10: a page adds its refs at most once. *)
Theorem listing_merges_each_page_once session order refs n all_branches :
  completion_order 9 order ->
  first_page session = Ok (refs, n) ->
  outcome (get_branches session order) = Ok all_branches ->
  all_branches ⊆+ refs ++ concat (map (page_refs session) (range 2 11)).
Proof.
  intros Horder Hfirst. rewrite get_branches_outcome, Hfirst.
  destruct (n =? 100); intros [= <-].
  - apply submseteq_skips_l.
    rewrite <- (concat_map_perm _ _ _ (as_completed_perm order (range 2 11) Horder)).
    apply merged_submseteq.
  - by apply submseteq_inserts_r.
Qed.

Lemma listing_merges_each_page_once_witness :
  completion_order 9 page_3_first /\
  first_page demo = Ok (replicate 100 (BranchRef (VStr "main") (VStr "a1")), 100) /\
  replicate 100 (BranchRef (VStr "main") (VStr "a1"))
  ++ [BranchRef (VStr "dev") (VStr "b2")]
  ⊆+ replicate 100 (BranchRef (VStr "main") (VStr "a1"))
     ++ concat (map (page_refs demo) (range 2 11)).
Proof.
  assert (Horder : completion_order 9 page_3_first) by apply perm_swap.
  assert (Hfirst : first_page demo
                   = Ok (replicate 100 (BranchRef (VStr "main") (VStr "a1")), 100))
    by (vm_compute; reflexivity).
  assert (Hout : outcome (get_branches demo page_3_first)
                 = Ok (replicate 100 (BranchRef (VStr "main") (VStr "a1"))
                       ++ [BranchRef (VStr "dev") (VStr "b2")]))
    by (vm_compute; reflexivity).
  split; [exact Horder|]. split; [exact Hfirst|].
  exact (listing_merges_each_page_once demo page_3_first _ _ _ Horder Hfirst Hout).
Defined.

(** X6: when page 1 is full and no later page is empty, everything listed
    is returned: the refs of page 1, then those of each later page as one
    block in the order the page gave them, the blocks in completion
    order.  If the futures complete in page order, so is the result. *)
Theorem full_listing_when_no_page_is_empty session order refs :
  first_page session = Ok (refs, 100) ->
  (forall page, page ∈ range 2 11 -> empty_page session page = false) ->
  completion_order 9 order ->
  outcome (get_branches session order)
  = Ok (refs ++ concat (map (page_refs session) (as_completed order (range 2 11)))) /\
  refs ++ concat (map (page_refs session) (as_completed order (range 2 11)))
  ≡ₚ refs ++ concat (map (page_refs session) (range 2 11)) /\
  (order = seq 0 9 ->
   outcome (get_branches session order)
   = Ok (refs ++ concat (map (page_refs session) (range 2 11)))).
Proof.
  intros Hfirst Hfull Horder.
  pose proof (as_completed_perm order (range 2 11) Horder) as Hperm.
  assert (Hout : outcome (get_branches session order)
                 = Ok (refs ++ concat (map (page_refs session)
                                         (as_completed order (range 2 11))))).
  { rewrite get_branches_outcome, Hfirst. cbn [Z.eqb Pos.eqb].
    rewrite merged_no_empty; [done|].
    intros page Hpage. apply Hfull. by rewrite <- Hperm. }
  split; [exact Hout|]. split.
  - f_equiv. by apply concat_map_perm.
  - intros ->. rewrite Hout. do 3 f_equal.
Qed.

Lemma full_listing_when_no_page_is_empty_witness :
  first_page full = Ok (replicate 100 (BranchRef (VStr "main") (VStr "a1")), 100) /\
  (forall page, page ∈ range 2 11 -> empty_page full page = false) /\
  completion_order 9 page_3_first /\
  outcome (get_branches full page_3_first)
  = Ok (replicate 100 (BranchRef (VStr "main") (VStr "a1"))
        ++ concat (map (page_refs full) (as_completed page_3_first (range 2 11)))).
Proof.
  assert (Hfirst : first_page full
                   = Ok (replicate 100 (BranchRef (VStr "main") (VStr "a1")), 100))
    by (vm_compute; reflexivity).
  assert (Hfull : forall page, page ∈ range 2 11 -> empty_page full page = false).
  { intros page Hpage. rewrite range_2_11 in Hpage.
    repeat (apply elem_of_cons in Hpage as [->|Hpage]; [reflexivity|]).
    by apply elem_of_nil in Hpage. }
  assert (Horder : completion_order 9 page_3_first) by apply perm_swap.
  split; [exact Hfirst|]. split; [exact Hfull|]. split; [exact Horder|].
  exact (proj1 (full_listing_when_no_page_is_empty full page_3_first _
                  Hfirst Hfull Horder)).
Defined.

Lemma requests_loop_lines completed : requests (loop_lines completed) = [].
Proof.
  unfold loop_lines. induction completed as [|[r|e] rest IH]; cbn; done.
Qed.

Lemma requests_task session branch :
  requests (trace (fetch_branch_details session branch))
  = option_list (detail_request branch).
Proof.
  rewrite fetch_branch_details_trace. unfold detail_request.
  destruct (getitem branch "branch_name") as [name|e]; [|done].
  by destruct (user_details session branch).
Qed.

(** ** More on the details *)

Lemma requests_get_branch_details session order branches :
  requests (trace (get_branch_details session order branches))
  = omap detail_request branches.
Proof.
  rewrite get_branch_details_trace, requests_app, requests_loop_lines, app_nil_r.
  induction branches as [|branch rest IH]; [done|].
  cbn [map concat]. rewrite requests_app, requests_task, IH.
  cbn. by destruct (detail_request branch).
Qed.

(** X7: one detail request per branch, no retry, no request skipped: the
    requests [get_branch_details] sends are those of its branches, one
    each for every branch that has a [branch_name], whatever the answers
    and the completion order; for refs as [get_branches] builds them that
    is one request per ref, for the name of the ref. *)
Theorem one_request_per_branch session order :
  (forall branches,
     requests (trace (get_branch_details session order branches))
     ≡ₚ omap detail_request branches /\
     (length (requests (trace (get_branch_details session order branches)))
      <= length branches)%nat) /\
  (forall refs : list (value * value),
     requests (trace (get_branch_details session order
                        (map (fun ref => BranchRef (fst ref) (snd ref)) refs)))
     ≡ₚ map (fun ref => BranchDetail (fst ref)) refs).
Proof.
  split.
  - intros branches. rewrite requests_get_branch_details.
    split; [done|apply omap_length_le].
  - intros refs. rewrite requests_get_branch_details.
    induction refs as [|[name sha] refs IH]; [done|]. cbn. by rewrite IH.
Qed.

(** X8: the shape of the output.  For refs as [get_branches] builds them,
    every record has exactly the six entries [author], [last_updated],
    [is_merged], [is_protected], [branch_name], [commit_sha], in this
    order, [is_merged] a boolean, and name and sha those of an input ref. *)
Theorem records_have_six_entries session order (refs : list (value * value)) records :
  outcome (get_branch_details session order
             (map (fun ref => BranchRef (fst ref) (snd ref)) refs)) = Ok records ->
  Forall (fun record =>
            exists author last_updated is_merged is_protected name sha,
              (name, sha) ∈ refs /\
              record = detail_record author last_updated is_merged is_protected name sha)
         records.
Proof.
  rewrite get_branch_details_outcome. intros [= <-].
  apply Forall_forall. intros record Hrecord.
  apply list_elem_of_omap in Hrecord as (branch & Hbranch & Hdetail).
  apply as_completed_elem, list_elem_of_fmap in Hbranch as ([name sha] & -> & Hin).
  apply detail_of_Some in Hdetail.
  destruct (fetch_ref_inv _ _ _ _ Hdetail)
    as (response & details & author & last_updated & message & is_protected
        & _ & _ & _ & _ & _ & _ & _ & ->).
  by exists author, last_updated, (String.prefix "Merge" message), is_protected, name, sha.
Qed.

Lemma records_have_six_entries_witness :
  outcome (get_branch_details acme [1; 0]%nat
             (map (fun ref => BranchRef (fst ref) (snd ref))
                  [(VStr "main", VStr "a1"); (VStr "dev", VStr "b2")]))
  = Ok [acme_record] /\
  Forall (fun record =>
            exists author last_updated is_merged is_protected name sha,
              (name, sha) ∈ [(VStr "main", VStr "a1"); (VStr "dev", VStr "b2")] /\
              record = detail_record author last_updated is_merged is_protected name sha)
         [acme_record].
Proof.
  assert (Hout : outcome (get_branch_details acme [1; 0]%nat
             (map (fun ref => BranchRef (fst ref) (snd ref))
                  [(VStr "main", VStr "a1"); (VStr "dev", VStr "b2")]))
                 = Ok [acme_record]) by (vm_compute; reflexivity).
  split; [exact Hout|].
  exact (records_have_six_entries acme [1; 0]%nat _ _ Hout).
Defined.

Lemma dict_get_set_eq items key v :
  dict_get (dict_set items key v) key = Some v.
Proof.
  induction items as [|[k w] items IH]; cbn.
  - by rewrite String.eqb_refl.
  - destruct (String.eqb k key) eqn:E; cbn; by rewrite E.
Qed.

Lemma dict_get_set_ne items key key' v :
  key <> key' -> dict_get (dict_set items key v) key' = dict_get items key'.
Proof.
  intros Hne. induction items as [|[k w] items IH]; cbn.
  - destruct (String.eqb_spec key key'); [done|done].
  - destruct (String.eqb_spec k key) as [->|Hk]; cbn.
    + by destruct (String.eqb_spec key key').
    + by rewrite IH.
Qed.

Lemma dict_get_update base extra key :
  NoDup (map fst extra) ->
  dict_get (dict_update base extra) key
  = match dict_get extra key with
    | Some v => Some v
    | None => dict_get base key
    end.
Proof.
  unfold dict_update. revert base.
  induction extra as [|[k v] extra IH]; intros base Hnodup; [done|].
  apply NoDup_cons in Hnodup as [Hk Hnodup]. cbn [fold_left fst snd dict_get].
  rewrite IH by done.
  destruct (String.eqb_spec k key) as [->|Hne].
  - destruct (dict_get extra key) as [w|] eqn:Hget.
    + exfalso. apply Hk. clear -Hget.
      induction extra as [|[k' v'] extra IH]; [done|]. cbn in *.
      destruct (String.eqb_spec k' key) as [->|_];
        [apply list_elem_of_here|by apply list_elem_of_further, IH].
    + apply dict_get_set_eq.
  - destruct (dict_get extra key); [done|]. by apply dict_get_set_ne.
Qed.

(** X9: the entries of the input branch win.  The record is the four
    computed fields overwritten by the branch's own entries ([**branch]
    comes last): every entry of the branch is in the record unchanged,
    also one named like a computed field, and a key the branch does not
    have is in the record only as a computed field. *)
Theorem branch_entries_win session items record :
  NoDup (map fst items) ->
  outcome (fetch_branch_details session (VDict items)) = Ok (Some record) ->
  exists entries,
    record = VDict entries /\
    (forall key v, dict_get items key = Some v -> dict_get entries key = Some v) /\
    (forall key,
       dict_get items key = None ->
       key <> "author" -> key <> "last_updated" ->
       key <> "is_merged" -> key <> "is_protected" ->
       dict_get entries key = None).
Proof.
  intros Hnodup. rewrite fetch_branch_details_outcome.
  destruct (user_details session (VDict items)) as [r|e] eqn:H;
    [intros [= <-]|by destruct (getitem (VDict items) "branch_name")].
  unfold user_details in H.
  bind_inv H as name. bind_inv H as response. bind_inv H as ok.
  bind_inv H as details. bind_inv H as author. bind_inv H as last_updated.
  bind_inv H as message. bind_inv H as is_merged. bind_inv H as is_protected.
  cbn -[dict_update] in H. injection H as <-.
  eexists. split; [done|]. split.
  - intros key v Hkey. by rewrite dict_get_update, Hkey.
  - intros key Hkey H1 H2 H3 H4. rewrite dict_get_update, Hkey by done.
    cbn [dict_get].
    destruct (String.eqb_spec "author" key); [congruence|].
    destruct (String.eqb_spec "last_updated" key); [congruence|].
    destruct (String.eqb_spec "is_merged" key); [congruence|].
    destruct (String.eqb_spec "is_protected" key); [congruence|done].
Qed.

Lemma branch_entries_win_witness :
  NoDup (map fst [("branch_name", VStr "main"); ("commit_sha", VStr "a1");
                  ("author", VStr "carol")]) /\
  outcome (fetch_branch_details demo
             (VDict [("branch_name", VStr "main"); ("commit_sha", VStr "a1");
                     ("author", VStr "carol")]))
  = Ok (Some (detail_record (VStr "carol") (VStr "2024-01-01T00:00:00Z") true
                (VBool false) (VStr "main") (VStr "a1"))) /\
  exists entries,
    detail_record (VStr "carol") (VStr "2024-01-01T00:00:00Z") true
      (VBool false) (VStr "main") (VStr "a1") = VDict entries /\
    dict_get entries "author" = Some (VStr "carol").
Proof.
  assert (Hnodup : NoDup (map fst [("branch_name", VStr "main");
                                   ("commit_sha", VStr "a1");
                                   ("author", VStr "carol")])).
  { cbn. repeat (apply NoDup_cons; split;
                 [rewrite ?elem_of_cons, elem_of_nil; intros H; decompose [or] H;
                  try discriminate; done|]).
    apply NoDup_nil_2. }
  assert (Hfetch : outcome (fetch_branch_details demo
             (VDict [("branch_name", VStr "main"); ("commit_sha", VStr "a1");
                     ("author", VStr "carol")]))
            = Ok (Some (detail_record (VStr "carol") (VStr "2024-01-01T00:00:00Z") true
                          (VBool false) (VStr "main") (VStr "a1"))))
    by (vm_compute; reflexivity).
  split; [exact Hnodup|]. split; [exact Hfetch|].
  destruct (branch_entries_win demo _ _ Hnodup Hfetch) as (entries & Heq & Hkeep & _).
  exists entries. split; [exact Heq|]. by apply Hkeep.
Defined.

Lemma fetch_branch_details_fails session name sha e :
  user_details session (BranchRef name sha) = Raise e ->
  fetch_branch_details session (BranchRef name sha)
  = IO (Ok None) [Get (BranchDetail name); Print (ErrorFetchingDetails name e)].
Proof.
  intros H. rewrite (io_eta (fetch_branch_details _ _)).
  by rewrite fetch_branch_details_outcome, fetch_branch_details_trace, H.
Qed.

(** X10: answers that are not what the code reads cost the branch.  A
    commit whose [author] is null (no account behind the commit) makes
    the task fail with a [TypeError]; one whose [message] is null makes
    it fail with an [AttributeError]; a non-2xx status in 400..599 with
    its [HTTPError].  Each time the task returns no record and prints one
    line with the branch name; nothing is raised. *)
Theorem unusable_details_drop_the_branch session name sha response :
  session (BranchDetail name) = Ok response ->
  (400 <= status_code response < 600 ->
   fetch_branch_details session (BranchRef name sha)
   = IO (Ok None)
        [Get (BranchDetail name);
         Print (ErrorFetchingDetails name (HTTPError (status_code response)))]) /\
  (forall details,
     raise_for_status response = Ok tt ->
     json response = Ok details ->
     path details ["commit"; "author"] = Ok VNone ->
     fetch_branch_details session (BranchRef name sha)
     = IO (Ok None) [Get (BranchDetail name); Print (ErrorFetchingDetails name TypeError)]) /\
  (forall details author last_updated,
     raise_for_status response = Ok tt ->
     json response = Ok details ->
     path details ["commit"; "author"; "login"] = Ok author ->
     path details ["commit"; "commit"; "author"; "date"] = Ok last_updated ->
     path details ["commit"; "commit"; "message"] = Ok VNone ->
     fetch_branch_details session (BranchRef name sha)
     = IO (Ok None)
          [Get (BranchDetail name); Print (ErrorFetchingDetails name AttributeError)]).
Proof.
  intros Hget. split; [|split].
  - intros Hstatus. apply fetch_branch_details_fails.
    unfold user_details, raise_for_status.
    change (getitem (BranchRef name sha) "branch_name") with (Ok name).
    cbn [mbind result_bind]. rewrite Hget. cbn [mbind result_bind].
    destruct (Z.leb_spec 400 (status_code response)); [|lia].
    destruct (Z.ltb_spec (status_code response) 600); [done|lia].
  - intros details Hstatus Hjson Hauthor. apply fetch_branch_details_fails.
    unfold user_details.
    change (getitem (BranchRef name sha) "branch_name") with (Ok name).
    cbn [mbind result_bind]. rewrite Hget. cbn [mbind result_bind].
    rewrite Hstatus. cbn [mbind result_bind]. rewrite Hjson. cbn [mbind result_bind].
    assert (Hlogin : path details ["commit"; "author"; "login"] = Raise TypeError).
    { cbn [path] in *. destruct (getitem details "commit") as [commit|]; [|done].
      cbn [mbind result_bind] in *.
      destruct (getitem commit "author") as [a|]; [|done].
      cbn [mbind result_bind] in *. by injection Hauthor as ->. }
    by rewrite Hlogin.
  - intros details author last_updated Hstatus Hjson Hauthor Hdate Hmessage.
    apply fetch_branch_details_fails. unfold user_details.
    change (getitem (BranchRef name sha) "branch_name") with (Ok name).
    cbn [mbind result_bind]. rewrite Hget. cbn [mbind result_bind].
    rewrite Hstatus. cbn [mbind result_bind]. rewrite Hjson. cbn [mbind result_bind].
    rewrite Hauthor. cbn [mbind result_bind]. rewrite Hdate. cbn [mbind result_bind].
    by rewrite Hmessage.
Qed.

Lemma unusable_details_drop_the_branch_witness :
  fetch_branch_details acme (BranchRef (VStr "dev") (VStr "b2"))
  = IO (Ok None)
       [Get (BranchDetail (VStr "dev"));
        Print (ErrorFetchingDetails (VStr "dev") (HTTPError 404))] /\
  fetch_branch_details ghost (BranchRef (VStr "main") (VStr "a1"))
  = IO (Ok None)
       [Get (BranchDetail (VStr "main"));
        Print (ErrorFetchingDetails (VStr "main") TypeError)].
Proof.
  split.
  - apply (proj1 (unusable_details_drop_the_branch acme (VStr "dev") (VStr "b2")
                    (Response 404 None) eq_refl)).
    cbn. lia.
  - destruct (unusable_details_drop_the_branch ghost (VStr "main") (VStr "a1") _ eq_refl)
      as (_ & Hnull & _).
    eapply Hnull; reflexivity.
Defined.

(** X11: the records come in completion order, not in submission order:
    their positions in the input form a subsequence of the completion
    order.  When the tasks complete in submission order, the output is
    the input order with the failed branches left out. *)
Theorem records_in_completion_order session order branches :
  exists records positions,
    outcome (get_branch_details session order branches) = Ok records /\
    positions `sublist_of` order /\
    Forall2 (fun record i =>
               exists branch,
                 branches !! i = Some branch /\
                 outcome (fetch_branch_details session branch) = Ok (Some record))
            records positions /\
    (order = seq 0 (length branches) -> records = omap (detail_of session) branches).
Proof.
  exists (omap (detail_of session) (as_completed order branches)).
  exists (fetched session branches order).
  split; [apply get_branch_details_outcome|]. split; [apply sublist_filter|]. split.
  - rewrite omap_as_completed. apply records_of_fetched.
  - intros ->. by rewrite as_completed_seq.
Qed.

Lemma records_in_completion_order_witness :
  [0; 1]%nat
  = seq 0 (length [BranchRef (VStr "main") (VStr "a1"); BranchRef (VStr "dev") (VStr "b2")]) /\
  outcome (get_branch_details demo [0; 1]%nat
             [BranchRef (VStr "main") (VStr "a1"); BranchRef (VStr "dev") (VStr "b2")])
  = Ok (omap (detail_of demo)
          [BranchRef (VStr "main") (VStr "a1"); BranchRef (VStr "dev") (VStr "b2")]).
Proof.
  split; [reflexivity|].
  destruct (records_in_completion_order demo [0; 1]%nat
              [BranchRef (VStr "main") (VStr "a1"); BranchRef (VStr "dev") (VStr "b2")])
    as (records & positions & Hout & _ & _ & Hsame).
  rewrite Hout. f_equal. by apply Hsame.
Defined.

Lemma printed_app t1 t2 : printed (t1 ++ t2) = printed t1 ++ printed t2.
Proof. apply omap_app. Qed.

(** What a branch adds to the output: a record, a line of its task, or a
    line of the loop. *)
Lemma branch_accounted_for session branch :
  (length (option_list (detail_of session branch))
   + length (printed (trace (fetch_branch_details session branch)))
   + length (loop_lines [outcome (fetch_branch_details session branch)]) = 1)%nat.
Proof.
  unfold detail_of.
  rewrite fetch_branch_details_outcome, fetch_branch_details_trace.
  destruct (user_details session branch) as [record|e] eqn:Hbody.
  - cbn. rewrite (user_details_truthy _ _ _ Hbody).
    assert (Hname : exists name, getitem branch "branch_name" = Ok name).
    { unfold user_details in Hbody.
      destruct (getitem branch "branch_name") as [name|]; [by exists name|done]. }
    destruct Hname as [name ->]. done.
  - by destruct (getitem branch "branch_name").
Qed.

Lemma printed_loop_lines completed :
  length (printed (loop_lines completed)) = length (loop_lines completed).
Proof.
  unfold loop_lines. induction completed as [|[r|e] rest IH]; cbn; [done|done|].
  by rewrite <- IH.
Qed.

Lemma loop_lines_perm completed completed' :
  completed ≡ₚ completed' -> loop_lines completed ≡ₚ loop_lines completed'.
Proof. intros H. unfold loop_lines. by rewrite H. Qed.

Lemma loop_lines_cons future completed :
  loop_lines (future :: completed) = loop_lines [future] ++ loop_lines completed.
Proof. by destruct future. Qed.

Lemma branches_accounted_for session branches :
  (length (omap (detail_of session) branches)
   + length (printed (concat (map (fun branch =>
                                     trace (fetch_branch_details session branch))
                                  branches)))
   + length (loop_lines (map (fun branch =>
                                outcome (fetch_branch_details session branch))
                             branches))
   = length branches)%nat.
Proof.
  induction branches as [|branch rest IH]; [done|].
  pose proof (branch_accounted_for session branch) as Hone.
  cbn [map concat omap list_omap length]. rewrite printed_app, length_app.
  rewrite loop_lines_cons, length_app.
  replace (length match detail_of session branch with
                  | Some y => y :: omap (detail_of session) rest
                  | None => omap (detail_of session) rest
                  end)
    with (length (option_list (detail_of session branch))
          + length (omap (detail_of session) rest))%nat
    by by destruct (detail_of session branch).
  lia.
Qed.

(** X12: every branch is accounted for exactly once.  The number of
    records returned plus the number of lines printed is the number of
    input branches: a branch gives a record or one error line, never
    both and never neither. *)
Theorem every_branch_accounted_for session order branches records :
  completion_order (length branches) order ->
  outcome (get_branch_details session order branches) = Ok records ->
  (length records
   + length (printed (trace (get_branch_details session order branches)))
   = length branches)%nat.
Proof.
  intros Horder. rewrite get_branch_details_outcome. intros [= <-].
  rewrite get_branch_details_trace, printed_app, length_app, printed_loop_lines.
  rewrite (as_completed_perm order branches Horder).
  rewrite (loop_lines_perm _ _ (as_completed_perm order _ ltac:(by rewrite length_map))).
  pose proof (branches_accounted_for session branches). lia.
Qed.

Lemma every_branch_accounted_for_witness :
  completion_order 3 [2; 0; 1]%nat /\
  outcome (get_branch_details acme [2; 0; 1]%nat
             [BranchRef (VStr "main") (VStr "a1"); VDict [];
              BranchRef (VStr "dev") (VStr "b2")])
  = Ok [acme_record] /\
  (length [acme_record]
   + length (printed (trace (get_branch_details acme [2; 0; 1]%nat
                               [BranchRef (VStr "main") (VStr "a1"); VDict [];
                                BranchRef (VStr "dev") (VStr "b2")])))
   = 3)%nat.
Proof.
  assert (Horder : completion_order 3 [2; 0; 1]%nat).
  { unfold completion_order. cbn.
    etrans; [apply perm_swap|]. apply perm_skip, perm_swap. }
  assert (Hout : outcome (get_branch_details acme [2; 0; 1]%nat
             [BranchRef (VStr "main") (VStr "a1"); VDict [];
              BranchRef (VStr "dev") (VStr "b2")])
            = Ok [acme_record]) by (vm_compute; reflexivity).
  split; [exact Horder|]. split; [exact Hout|].
  exact (every_branch_accounted_for acme [2; 0; 1]%nat
           [BranchRef (VStr "main") (VStr "a1"); VDict [];
            BranchRef (VStr "dev") (VStr "b2")] _ Horder Hout).
Defined.

(** ** The script *)

Lemma dumps_app e1 e2 : dumps (e1 ++ e2) = dumps e1 ++ dumps e2.
Proof. apply omap_app. Qed.

Lemma dumps_did t : dumps (map Did t) = [].
Proof. induction t as [|ev t IH]; [done|]. exact IH. Qed.

Lemma get_branch_details_returns session order branches :
  exists records, outcome (get_branch_details session order branches) = Ok records.
Proof. rewrite get_branch_details_outcome. eauto. Qed.

(** X13: when the listing fails nothing is written.  If [get_branches]
    raises, the script ends with that exception after "Fetching
    branches..." and the one request for page 1: no detail request is
    sent, no count is printed and [branches.json] is not touched. *)
Theorem failed_listing_writes_no_file session order1 order2 e :
  outcome (get_branches session order1) = Raise e ->
  script session order1 order2
  = (Raise e, [Say FetchingBranches; Did (Get (ListPage 1))]) /\
  dumps (snd (script session order1 order2)) = [].
Proof.
  intros Hout.
  assert (Hfirst : first_page session = Raise e).
  { rewrite get_branches_outcome in Hout.
    destruct (first_page session) as [[refs n]|e']; [|congruence].
    by destruct (n =? 100). }
  assert (Hrun : script session order1 order2
                 = (Raise e, [Say FetchingBranches; Did (Get (ListPage 1))])).
  { unfold script. cbn zeta. by rewrite (get_branches_fatal _ _ _ Hfirst). }
  split; [exact Hrun|]. by rewrite Hrun.
Qed.

Lemma failed_listing_writes_no_file_witness :
  outcome (get_branches unauthorized (seq 0 9)) = Raise (HTTPError 401) /\
  script unauthorized (seq 0 9) []
  = (Raise (HTTPError 401), [Say FetchingBranches; Did (Get (ListPage 1))]).
Proof.
  assert (Hout : outcome (get_branches unauthorized (seq 0 9)) = Raise (HTTPError 401))
    by reflexivity.
  split; [exact Hout|].
  exact (proj1 (failed_listing_writes_no_file unauthorized (seq 0 9) [] _ Hout)).
Defined.

(** X14: when the listing returns, the script ends normally, whatever
    the detail requests give.  It writes [branches.json] once, as its
    last step, with exactly the records [get_branch_details] returned
    (an empty list included); the two counts printed are the number of
    branches listed and the number of records written, the second never
    above the first. *)
Theorem script_writes_the_records_once session order1 order2 branches :
  outcome (get_branches session order1) = Ok branches ->
  completion_order (length branches) order2 ->
  exists records before,
    outcome (get_branch_details session order2 branches) = Ok records /\
    script session order1 order2
    = (Ok tt, before ++ [Say (ProcessedDetails (length records));
                         Dump "branches.json" records]) /\
    dumps (snd (script session order1 order2)) = [("branches.json", records)] /\
    Say (FoundBranches (length branches)) ∈ before /\
    (length records <= length branches)%nat.
Proof.
  intros Hout Horder.
  destruct (get_branch_details_returns session order2 branches) as [records Hrecords].
  exists records.
  exists (Say FetchingBranches :: map Did (trace (get_branches session order1))
          ++ Say (FoundBranches (length branches))
             :: map Did (trace (get_branch_details session order2 branches))).
  assert (Hrun : script session order1 order2
                 = (Ok tt,
                    (Say FetchingBranches :: map Did (trace (get_branches session order1))
                     ++ Say (FoundBranches (length branches))
                        :: map Did (trace (get_branch_details session order2 branches)))
                    ++ [Say (ProcessedDetails (length records));
                        Dump "branches.json" records])).
  { unfold script. cbn zeta. by rewrite Hout, Hrecords. }
  split; [exact Hrecords|]. split; [exact Hrun|]. split; [|split].
  - rewrite Hrun. cbn [snd]. rewrite dumps_app.
    change (dumps (?x :: ?l)) with (dumps [x] ++ dumps l).
    rewrite dumps_app, dumps_did.
    change (dumps (?x :: ?l)) with (dumps [x] ++ dumps l).
    by rewrite dumps_did.
  - apply list_elem_of_further, elem_of_app. right. apply list_elem_of_here.
  - rewrite get_branch_details_outcome in Hrecords. injection Hrecords as <-.
    rewrite omap_as_completed, <- (completion_order_length _ _ Horder).
    apply omap_length_le.
Qed.

Lemma script_writes_the_records_once_witness :
  outcome (get_branches acme (seq 0 9))
  = Ok [BranchRef (VStr "main") (VStr "a1"); BranchRef (VStr "dev") (VStr "b2")] /\
  completion_order 2 [1; 0]%nat /\
  dumps (snd (script acme (seq 0 9) [1; 0]%nat)) = [("branches.json", [acme_record])].
Proof.
  assert (Hout : outcome (get_branches acme (seq 0 9))
                 = Ok [BranchRef (VStr "main") (VStr "a1");
                       BranchRef (VStr "dev") (VStr "b2")]) by reflexivity.
  assert (Horder : completion_order 2 [1; 0]%nat) by apply perm_swap.
  split; [exact Hout|]. split; [exact Horder|].
  destruct (script_writes_the_records_once acme (seq 0 9) [1; 0]%nat _ Hout Horder)
    as (records & before & Hrecords & _ & Hdumps & _).
  assert (Hacme : outcome (get_branch_details acme [1; 0]%nat
                   [BranchRef (VStr "main") (VStr "a1");
                    BranchRef (VStr "dev") (VStr "b2")]) = Ok [acme_record])
    by (vm_compute; reflexivity).
  rewrite Hacme in Hrecords. injection Hrecords as <-. exact Hdumps.
Defined.

(** ** The session headers *)

Section HeaderLemmas.
Variable lower : string -> string.

Lemma header_get_set_eq h key key' v :
  lower key = lower key' ->
  header_get lower (header_set lower h key v) key' = Some v.
Proof.
  intros Hkey. induction h as [|[k [name old]] h IH]; cbn.
  - by rewrite Hkey, String.eqb_refl.
  - destruct (String.eqb k (lower key)) eqn:E; cbn.
    + by rewrite <- Hkey, E.
    + rewrite <- Hkey, E. exact IH.
Qed.

Lemma header_get_set_ne h key key' v :
  lower key <> lower key' ->
  header_get lower (header_set lower h key v) key' = header_get lower h key'.
Proof.
  intros Hne. induction h as [|[k [name old]] h IH]; cbn.
  - by destruct (String.eqb_spec (lower key) (lower key')).
  - destruct (String.eqb_spec k (lower key)) as [->|Hk]; cbn.
    + by destruct (String.eqb_spec (lower key) (lower key')).
    + by rewrite IH.
Qed.

Lemma header_set_keys h key v k :
  k ∈ map fst (header_set lower h key v) -> k ∈ map fst h \/ k = lower key.
Proof.
  induction h as [|[k' old] h IH]; cbn.
  - intros [->|[]%elem_of_nil]%elem_of_cons. by right.
  - destruct (String.eqb_spec k' (lower key)) as [->|Hk]; cbn.
    + by left.
    + intros [->|Hin]%elem_of_cons; [left; apply list_elem_of_here|].
      destruct (IH Hin) as [?|?]; [left; by apply list_elem_of_further|by right].
Qed.

Lemma header_set_NoDup h key v :
  NoDup (map fst h) -> NoDup (map fst (header_set lower h key v)).
Proof.
  induction h as [|[k old] h IH]; cbn.
  - intros _. apply NoDup_singleton.
  - intros [Hk Hh]%NoDup_cons.
    destruct (String.eqb_spec k (lower key)) as [->|Hne]; cbn.
    + by apply NoDup_cons.
    + apply NoDup_cons. split; [|by apply IH].
      intros [?|?]%header_set_keys; [done|congruence].
Qed.
End HeaderLemmas.

(** X15: the session [create_session] returns.  Looked up under any
    spelling of the name, its [Authorization] header is "token "
    followed by the token and its [Accept] header is the v3 media type,
    replacing the one a fresh session has; every other header is as in a
    fresh session; and no header name is stored twice. *)
Theorem create_session_headers lower default_headers token :
  lower "Authorization" <> lower "Accept" ->
  (forall key, lower key = lower "Authorization" ->
     header_get lower (create_session lower default_headers token) key
     = Some (String.append "token " token)) /\
  (forall key, lower key = lower "Accept" ->
     header_get lower (create_session lower default_headers token) key
     = Some "application/vnd.github.v3+json") /\
  (forall key,
     lower key <> lower "Authorization" -> lower key <> lower "Accept" ->
     header_get lower (create_session lower default_headers token) key
     = header_get lower default_headers key) /\
  (NoDup (map fst default_headers) ->
   NoDup (map fst (create_session lower default_headers token))).
Proof.
  intros Hne. unfold create_session, header_update. cbn [fold_left fst snd].
  split; [|split; [|split]].
  - intros key Hkey. rewrite header_get_set_ne by congruence.
    by apply header_get_set_eq.
  - intros key Hkey. by apply header_get_set_eq.
  - intros key H1 H2. rewrite !header_get_set_ne by congruence. done.
  - intros H. by do 2 apply header_set_NoDup.
Qed.

Lemma create_session_headers_witness :
  ascii_lower "Authorization" <> ascii_lower "Accept" /\
  header_get ascii_lower (create_session ascii_lower sample_headers "s3cr3t") "authorization"
  = Some "token s3cr3t" /\
  header_get ascii_lower (create_session ascii_lower sample_headers "s3cr3t") "ACCEPT"
  = Some "application/vnd.github.v3+json" /\
  header_get ascii_lower (create_session ascii_lower sample_headers "s3cr3t") "Connection"
  = Some "keep-alive".
Proof.
  assert (Hne : ascii_lower "Authorization" <> ascii_lower "Accept") by discriminate.
  destruct (create_session_headers ascii_lower sample_headers "s3cr3t" Hne)
    as (Hauth & Haccept & Hother & _).
  split; [exact Hne|]. split; [|split].
  - by apply Hauth.
  - by apply Haccept.
  - rewrite Hother; [reflexivity|discriminate|discriminate].
Defined.
